(** * Speedy: the search overlay controller

    A shallow embedding of [src/components/SearchBar/SearchBar.tsx] and
    [src/components/SearchBar/useKeyboardShortcut.ts].

    The React component is modelled as an event-driven state machine.  The
    hooks' state ([useState]) and the timer handle ([useRef]) are the fields
    of [State]; each handler of the component is a function on [State]; the
    browser (key presses, typing, clicks, the passage of time, the settling
    of promises returned by Tauri's [invoke]) is the [Event] type.

    Conventions.
    - A [string] stands for a JavaScript string whose UTF-16 code units all
      lie below 256, so that [String.length] is [.length].
    - Handlers close over the values of the latest render.  React re-renders
      and re-subscribes the listeners between two discrete events, so the
      values a handler closes over are those of the state it is run on.
    - An [await] splits an async function in two: the part that runs up to
      the call of [invoke], and the continuation that runs when the promise
      settles (event [Settle]).  Between the two any other event may occur.
    - [State] has one slot for the armed timer.  The module [Browser] models
      the timers as the browser keeps them, a list of active timeouts under
      their handles, and the one slot is proved to be all that list ever
      holds ([simulation_run]). *)

From Stdlib Require Import List String Ascii Bool ZArith QArith Qround Qabs Lia.
From Stdlib Require Import DecimalString.
From Stdlib Require Import Lqa.
Import ListNotations.

Local Open Scope string_scope.
Local Open Scope Z_scope.

(** ** Data model *)

(** [type: 'file' | 'folder' | 'app'] *)
Inductive ResultType : Type := file | folder | app.

(** [type SearchResult = { path; name; type; score? }].  The score is a
    JavaScript number, finite since it comes out of JSON; it is modelled by
    the rational it denotes. *)
Record SearchResult : Type := mkResult {
  path  : string;
  name  : string;
  type  : ResultType;
  score : option Q
}.

(** The three Tauri commands the component invokes. *)
Inductive Command : Type := search | launch_app | open_path.

(** One call [invoke(command, { query | path : argument })]. *)
Record Invocation : Type := mkInvocation {
  command  : Command;
  argument : string
}.

(** How the promise of an [invoke] settles. *)
Inductive Outcome : Type :=
| Resolved (payload : list SearchResult)
| Rejected (error : string).

(** The armed [setTimeout]: the instant it is due, and the [searchQuery] its
    callback closed over. *)
Record Timer : Type := mkTimer {
  due      : nat;
  captured : string
}.

(** The component's hooks (first six fields) and the world around it. *)
Record State : Type := mkState {
  isVisible     : bool;
  searchQuery   : string;
  results       : list SearchResult;
  isSearching   : bool;
  selectedIndex : Z;
  debounceTimer : option Timer;
  (* the world *)
  clock         : nat;               (* milliseconds *)
  pending       : list Invocation;   (* promises not settled yet *)
  invocations   : list Invocation;   (* every [invoke] made, oldest first *)
  alerts        : list string;       (* [alert] boxes shown *)
  console       : list string        (* [console.error] lines *)
}.

(** The state at mount: the [useState] initial values. *)
Definition initial : State :=
  mkState false "" [] false (-1) None 0%nat [] [] [] [].

(** ** State setters *)

Definition setIsVisible (b : bool) (s : State) : State :=
  mkState b (searchQuery s) (results s) (isSearching s) (selectedIndex s)
          (debounceTimer s) (clock s) (pending s) (invocations s) (alerts s) (console s).

Definition setSearchQuery (q : string) (s : State) : State :=
  mkState (isVisible s) q (results s) (isSearching s) (selectedIndex s)
          (debounceTimer s) (clock s) (pending s) (invocations s) (alerts s) (console s).

Definition setResults (rs : list SearchResult) (s : State) : State :=
  mkState (isVisible s) (searchQuery s) rs (isSearching s) (selectedIndex s)
          (debounceTimer s) (clock s) (pending s) (invocations s) (alerts s) (console s).

Definition setIsSearching (b : bool) (s : State) : State :=
  mkState (isVisible s) (searchQuery s) (results s) b (selectedIndex s)
          (debounceTimer s) (clock s) (pending s) (invocations s) (alerts s) (console s).

Definition setSelectedIndex (i : Z) (s : State) : State :=
  mkState (isVisible s) (searchQuery s) (results s) (isSearching s) i
          (debounceTimer s) (clock s) (pending s) (invocations s) (alerts s) (console s).

Definition setDebounceTimer (t : option Timer) (s : State) : State :=
  mkState (isVisible s) (searchQuery s) (results s) (isSearching s) (selectedIndex s)
          t (clock s) (pending s) (invocations s) (alerts s) (console s).

Definition setClock (c : nat) (s : State) : State :=
  mkState (isVisible s) (searchQuery s) (results s) (isSearching s) (selectedIndex s)
          (debounceTimer s) c (pending s) (invocations s) (alerts s) (console s).

Definition setPending (p : list Invocation) (s : State) : State :=
  mkState (isVisible s) (searchQuery s) (results s) (isSearching s) (selectedIndex s)
          (debounceTimer s) (clock s) p (invocations s) (alerts s) (console s).

(** [invoke(c, a)]: the call is made and its promise is pending. *)
Definition invoke (c : Command) (a : string) (s : State) : State :=
  let i := mkInvocation c a in
  mkState (isVisible s) (searchQuery s) (results s) (isSearching s) (selectedIndex s)
          (debounceTimer s) (clock s) (pending s ++ [i]) (invocations s ++ [i])
          (alerts s) (console s).

Definition alert (msg : string) (s : State) : State :=
  mkState (isVisible s) (searchQuery s) (results s) (isSearching s) (selectedIndex s)
          (debounceTimer s) (clock s) (pending s) (invocations s)
          (alerts s ++ [msg]) (console s).

Definition console_error (msg : string) (s : State) : State :=
  mkState (isVisible s) (searchQuery s) (results s) (isSearching s) (selectedIndex s)
          (debounceTimer s) (clock s) (pending s) (invocations s)
          (alerts s) (console s ++ [msg]).

(** ** JavaScript helpers *)

(** The code units below 256 that [String.prototype.trim] strips:
    TAB, LF, VT, FF, CR, SPACE and NBSP. *)
Definition is_white_space (c : ascii) : bool :=
  let n := nat_of_ascii c in
  ((9 <=? n) && (n <=? 13) || (n =? 32) || (n =? 160))%nat.

Fixpoint trimStart (s : string) : string :=
  match s with
  | EmptyString => EmptyString
  | String c rest => if is_white_space c then trimStart rest else s
  end.

Fixpoint reverse (s : string) : string :=
  match s with
  | EmptyString => EmptyString
  | String c rest => reverse rest ++ String c EmptyString
  end.

Definition trimEnd (s : string) : string := reverse (trimStart (reverse s)).

Definition trim (s : string) : string := trimEnd (trimStart s).

Arguments trim : simpl never.

(** [array[i]] for an integer [i]: [undefined] outside the array. *)
Definition index {A : Type} (l : list A) (i : Z) : option A :=
  if i <? 0 then None else nth_error l (Z.to_nat i).

(** [array.length] as a JavaScript number. *)
Definition len {A : Type} (l : list A) : Z := Z.of_nat (List.length l).

(** [Math.round]: the nearest integer, halves towards plus infinity. *)
Definition Math_round (x : Q) : Z := Qfloor (x + (1 # 2)).

(** ** Arithmetic on numbers

    A JavaScript number is a binary64 floating-point number; a finite one
    is modelled by the rational it denotes.  The result of an arithmetic
    operation is the binary64 number nearest to the exact result, ties going
    to the even significand.  Results of magnitude 2^1024 or more, which
    JavaScript turns into infinities, are outside the model. *)

(** 2^e. *)
Definition pow2 (e : Z) : Q :=
  if 0 <=? e then inject_Z (2 ^ e) else 1 # Z.to_pos (2 ^ (- e)).

(** The integer part of the binary logarithm of a positive rational. *)
Definition floor_log2 (a : Q) : Z :=
  let k := Z.log2 (Qnum a) - Z.log2 (Zpos (Qden a)) in
  if Qle_bool (pow2 k) a then k else k - 1.

(** The nearest integer, ties to the even one. *)
Definition round_half_even (r : Q) : Z :=
  let f := Qfloor r in
  match Qcompare (r - inject_Z f) (1 # 2) with
  | Lt => f
  | Gt => f + 1
  | Eq => if Z.even f then f else f + 1
  end.

(** The binary64 number nearest to a rational: 53 significant bits, the
    least exponent being -1074. *)
Definition round64 (x : Q) : Q :=
  if Qeq_bool x 0 then 0%Q
  else
    let a := Qabs x in
    let p := Z.max (floor_log2 a - 52) (-1074) in
    let m := round_half_even (a / pow2 p) in
    ((if Qle_bool 0 x then 1 else -1) * (inject_Z m * pow2 p))%Q.

(** [x * y] on numbers. *)
Definition number_mul (x y : Q) : Q := round64 (x * y).

(** The one-character string holding a double quote. *)
Definition dquote : string := String (ascii_of_nat 34) EmptyString.

(** An integer converted to its decimal text, as JavaScript writes the
    integers below 10^21 in magnitude. *)
Definition number_to_string (z : Z) : string :=
  NilZero.string_of_int (Z.to_int z).

(** ** The component's handlers *)

(** [toggleVisibility] (lines 24-29). *)
Definition toggleVisibility (s : State) : State :=
  setSelectedIndex (-1)
    (setResults []
       (setSearchQuery ""
          (setIsVisible (negb (isVisible s)) s))).

(** What [performSearch] (lines 39-50) does before it first awaits: it
    returns the empty array at once, or it calls [invoke('search', { query })]. *)
Inductive SearchStart : Type :=
| ReturnNow (rs : list SearchResult)
| AwaitInvoke (c : Command) (a : string).

Definition performSearch (query : string) : SearchStart :=
  if (String.length query <? 2)%nat then ReturnNow []
  else AwaitInvoke search query.

(** What [performSearch] returns once the promise has settled: the payload,
    or the empty array after logging ([catch], lines 46-49). *)
Definition performSearch_settled (o : Outcome) (s : State)
  : list SearchResult * State :=
  match o with
  | Resolved rs => (rs, s)
  | Rejected e => ([], console_error ("Search error: " ++ e) s)
  end.

(** The end of the timer callback (lines 67 and 71-73), after
    [await performSearch(searchQuery)] has produced [searchResults]. *)
Definition searchCompleted (searchResults : list SearchResult) (s : State) : State :=
  setIsSearching false (setResults searchResults s).

(** The timer callback (lines 63-74), up to its [await]. *)
Definition timerCallback (q : string) (s : State) : State :=
  let s := setIsSearching true s in
  match performSearch q with
  | ReturnNow rs => searchCompleted rs s
  | AwaitInvoke c a => invoke c a s
  end.

(** The continuation of the timer callback when the search promise settles. *)
Definition searchSettled (o : Outcome) (s : State) : State :=
  let (searchResults, s) := performSearch_settled o s in
  searchCompleted searchResults s.

(** [clearTimeout(debounceTimer.current)].  The source keeps the handle of a
    timer that has fired or been cleared and clears it again, which does
    nothing; here the handle is [None] once the timer is gone. *)
Definition clearTimeout (s : State) : State := setDebounceTimer None s.

(** The effect on [searchQuery] (lines 52-81): its body, preceded by the
    cleanup of its previous run (lines 76-80). *)
Definition searchEffect (s : State) : State :=
  let s := clearTimeout s in
  if String.eqb (trim (searchQuery s)) "" then
    setSelectedIndex (-1) (setResults [] s)
  else
    setDebounceTimer
      (Some (mkTimer (clock s + 200)%nat (searchQuery s))) s.

(** [handleResultClick] (lines 113-128), up to its [await]. *)
Definition handleResultClick (result : SearchResult) (s : State) : State :=
  match type result with
  | app => invoke launch_app (path result) s
  | _ => invoke open_path (path result) s
  end.

(** The continuation of [handleResultClick] when its promise settles. *)
Definition activationSettled (o : Outcome) (s : State) : State :=
  match o with
  | Resolved _ => setIsVisible false s
  | Rejected e =>
      alert ("Failed to open: " ++ e)
        (console_error ("Failed to open: " ++ e) s)
  end.

(** A key-down event: [key], [ctrlKey], [shiftKey], [altKey]. *)
Record KeyboardEvent : Type := mkKey {
  key      : string;
  ctrlKey  : bool;
  shiftKey : bool;
  altKey   : bool
}.

(** [handleKeyDown] of the component (lines 84-98). *)
Definition handleKeyDown (event : KeyboardEvent) (s : State) : State :=
  if negb (isVisible s) then s
  else if String.eqb (key event) "Escape" then
    setIsVisible false s
  else if String.eqb (key event) "ArrowDown" then
    setSelectedIndex (Z.min (selectedIndex s + 1) (len (results s) - 1)) s
  else if String.eqb (key event) "ArrowUp" then
    setSelectedIndex (Z.max (selectedIndex s - 1) (-1)) s
  else if String.eqb (key event) "Enter" && (selectedIndex s >=? 0) then
    match index (results s) (selectedIndex s) with
    | Some result => handleResultClick result s
    | None => s
    end
  else s.

(** The listener of [useKeyboardShortcut] (lines 19-29 of the hook). *)
Definition useKeyboardShortcut (k : string) (ctrl shift alt : bool)
    (callback : State -> State) (e : KeyboardEvent) (s : State) : State :=
  if String.eqb (key e) k && Bool.eqb (ctrlKey e) ctrl
     && Bool.eqb (shiftKey e) shift && Bool.eqb (altKey e) alt
  then callback s
  else s.

(** Line 31: the overlay is toggled by Ctrl+Space. *)
Definition shortcut : KeyboardEvent -> State -> State :=
  useKeyboardShortcut " " true false false toggleVisibility.

(** ** Events and the step function *)

Inductive Event : Type :=
| KeyDown (e : KeyboardEvent)        (* a key goes down in the window *)
| InputChange (value : string)       (* [onChange] of the text field *)
| Click (row : nat)                  (* [onClick] of a result row *)
| Settle (n : nat) (o : Outcome)     (* the [n]-th pending promise settles *)
| Elapse (ms : nat).                 (* time passes *)

(** After the handlers of an event have run React renders again and runs the
    effects whose dependencies changed.  Only the effect on [searchQuery]
    touches the state. *)
Definition commit (before after : State) : State :=
  if String.eqb (searchQuery before) (searchQuery after) then after
  else searchEffect after.

Fixpoint remove_nth {A : Type} (n : nat) (l : list A) : list A :=
  match l, n with
  | [], _ => []
  | _ :: rest, O => rest
  | x :: rest, S n' => x :: remove_nth n' rest
  end.

(** Time advances; the armed timer fires once it is due. *)
Definition elapse (ms : nat) (s : State) : State :=
  let s := setClock (clock s + ms)%nat s in
  match debounceTimer s with
  | Some t =>
      if (due t <=? clock s)%nat
      then timerCallback (captured t) (setDebounceTimer None s)
      else s
  | None => s
  end.

(** A pending promise settles and the function awaiting it resumes. *)
Definition settle (n : nat) (o : Outcome) (s : State) : State :=
  match nth_error (pending s) n with
  | None => s
  | Some i =>
      let s := setPending (remove_nth n (pending s)) s in
      match command i with
      | search => searchSettled o s
      | launch_app | open_path => activationSettled o s
      end
  end.

Definition handle (ev : Event) (s : State) : State :=
  match ev with
  | KeyDown e => shortcut e (handleKeyDown e s)
  | InputChange value => setSearchQuery value s
  | Click row =>
      match nth_error (results s) row with
      | Some result => handleResultClick result s
      | None => s
      end
  | Settle n o => settle n o s
  | Elapse ms => elapse ms s
  end.

Definition step (s : State) (ev : Event) : State := commit s (handle ev s).

Definition run (evs : list Event) (s : State) : State := fold_left step evs s.

(** A state the component can be in. *)
Definition reachable (s : State) : Prop := exists evs, s = run evs initial.

(** ** Rendering *)

(** The glyph of [getIconForType] (lines 206-227), one per type. *)
Inductive Glyph : Type := FileGlyph | FolderGlyph | AppGlyph.

Definition getIconForType (t : ResultType) : Glyph :=
  match t with
  | file => FileGlyph
  | folder => FolderGlyph
  | app => AppGlyph
  end.

(** What React puts on the page for a JSX child. *)
Inductive Rendered : Type :=
| Nothing                       (* [undefined], [false], [null] *)
| Text (t : string)             (* a number or a string *)
| ScoreSpan (label : string).   (* [<span className="result-score">] *)

(** Lines 181-183:
    [{result.score && (<span>{Math.round(result.score * 100)}%</span>)}].
    [a && b] is [a] when [a] is falsy, and React prints a number it is given
    as a child. *)
Definition renderScore (result : SearchResult) : Rendered :=
  match score result with
  | None => Nothing
  | Some x =>
      if Qeq_bool x 0 then Text (number_to_string 0)
      else ScoreSpan (number_to_string (Math_round (number_mul x 100)) ++ "%")
  end.

(** What the component shows besides the text field (lines 146-200). *)
Record View : Type := mkView {
  spinner     : bool;
  resultCount : option string;
  resultRows  : list SearchResult;
  noResults   : option string
}.

Definition render (s : State) : View :=
  mkView
    (isSearching s)
    (if isSearching s then None
     else if 0 <? len (results s)
          then Some (number_to_string (len (results s)) ++ " " ++
                     (if len (results s) =? 1 then "result" else "results"))
          else None)
    (results s)
    (if negb (isSearching s) && (len (results s) =? 0)
        && (2 <=? String.length (searchQuery s))%nat
     then Some ("No results found for " ++ dquote ++ searchQuery s ++ dquote)
     else None).

(** The states of the overlay, told apart by what is on the page: hidden;
    the spinner; rows; the no-results line; the bare text field. *)
Inductive OverlayState : Type :=
  Closed | OpenEmpty | OpenPending | OpenResults | OpenNoMatch.

Definition overlayState (s : State) : OverlayState :=
  if negb (isVisible s) then Closed
  else if spinner (render s) then OpenPending
  else match resultRows (render s), noResults (render s) with
       | _ :: _, _ => OpenResults
       | [], Some _ => OpenNoMatch
       | [], None => OpenEmpty
       end.

(** * Vocabulary of the properties *)

(** The toggle hotkey, and a key pressed without modifiers. *)
Definition ctrlSpace : Event := KeyDown (mkKey " " true false false).

Definition press (k : string) : Event := KeyDown (mkKey k false false false).

(** Three results the engine may return, one of each type. *)
Definition notes_txt : SearchResult :=
  mkResult "C:/docs/notes.txt" "notes.txt" file (Some (1 # 2)).

Definition reports_dir : SearchResult :=
  mkResult "C:/docs/reports" "reports" folder None.

Definition reporter_exe : SearchResult :=
  mkResult "C:/apps/reporter.exe" "reporter" app (Some (0 # 1)).

(** The overlay is opened, "report" is typed, the debounce window passes and
    the engine answers with three results. *)
Definition three_results : list Event :=
  [ctrlSpace; InputChange "report"; Elapse 200;
   Settle 0 (Resolved [notes_txt; reports_dir; reporter_exe])].

(** The selection is "none" or the index of a row. *)
Definition selection_in_range (s : State) : Prop :=
  -1 <= selectedIndex s < len (results s).

(** The query is blank: [searchQuery.trim() === ''] (line 57). *)
Definition blank (q : string) : bool := String.eqb (trim q) "".

(** The armed timer, if any, closed over the current query. *)
Definition timer_matches_query (s : State) : Prop :=
  match debounceTimer s with
  | Some t => captured t = searchQuery s
  | None => True
  end.

(** The state right after the effect has run for query [q]: no timer for a
    blank query, else a timer due a full window from now. *)
Definition window_restarted (q : string) (s : State) : Prop :=
  searchQuery s = q /\
  debounceTimer s =
    if blank q then None else Some (mkTimer (clock s + 200)%nat q).

(** A burst of typing: each edit comes [gap] milliseconds after the event
    before it and replaces the text of the field. *)
Definition keystrokes (edits : list (nat * string)) : list Event :=
  flat_map (fun e => [Elapse (fst e); InputChange (snd e)]) edits.

(** Every edit changes the text and comes within the window of the one
    before. *)
Fixpoint rapid (previous : string) (edits : list (nat * string)) : Prop :=
  match edits with
  | [] => True
  | e :: rest =>
      (fst e < 200)%nat /\ snd e <> previous /\ rapid (snd e) rest
  end.

(** The text of the field when the burst is over. *)
Fixpoint final_query (first : string) (edits : list (nat * string)) : string :=
  match edits with
  | [] => first
  | e :: rest => final_query (snd e) rest
  end.

(** The overlay with nothing but its text field on the page. *)
Definition quiet_overlay (q : string) (s : State) : Prop :=
  isVisible s = true /\ isSearching s = false /\ results s = [] /\
  searchQuery s = q.

(** The event makes the timer callback run or resume. *)
Definition search_progresses (s : State) (ev : Event) : bool :=
  match ev with
  | Elapse ms =>
      match debounceTimer s with
      | Some t => (due t <=? clock s + ms)%nat
      | None => false
      end
  | Settle n _ =>
      match nth_error (pending s) n with
      | Some (mkInvocation search _) => true
      | _ => false
      end
  | _ => false
  end.

(** What the engine finds for "abc" and for "abcd". *)
Definition abc_hit : SearchResult :=
  mkResult "C:/docs/abc.txt" "abc.txt" file None.

Definition abcd_hit : SearchResult :=
  mkResult "C:/docs/abcd.txt" "abcd.txt" file None.

(** "abc" is typed and its request leaves; "abcd" is typed before the answer
    is back, its request leaves and is answered. *)
Definition abcd_answered : list Event :=
  [ctrlSpace; InputChange "abc"; Elapse 200; InputChange "abcd"; Elapse 200;
   Settle 1 (Resolved [abcd_hit])].

(** Three results are on the page, the cursor is moved down to the last of
    them, the text is edited and the new request is sent. *)
Definition cursor_on_last_row : list Event :=
  (three_results ++
   [press "ArrowDown"; press "ArrowDown"; press "ArrowDown";
    InputChange "reports"; Elapse 200])%list.

(** The folder of the second row is activated and its promise is pending. *)
Definition folder_chosen : State :=
  run (three_results ++ [press "ArrowDown"; press "ArrowDown"; press "Enter"])
      initial.

(** * More of the component *)

(** The result rows (lines 164-192): [results.map((result, index) => ...)].
    A row carries its result, its key [`${result.path}-${index}`] and the
    flag [selectedIndex === index], which sets the class [selected] and
    [aria-selected]. *)
Record Row : Type := mkRow {
  rowResult   : SearchResult;
  rowKey      : string;
  rowSelected : bool
}.

Fixpoint rowsFrom (i : Z) (selected : Z) (rs : list SearchResult) : list Row :=
  match rs with
  | [] => []
  | r :: rest =>
      mkRow r (path r ++ "-" ++ number_to_string i) (selected =? i)
        :: rowsFrom (i + 1) selected rest
  end.

Definition renderRows (s : State) : list Row :=
  rowsFrom 0 (selectedIndex s) (results s).

(** The [d] attribute of the path [getIconForType] draws (lines 206-227). *)
Definition iconPath (t : ResultType) : string :=
  match t with
  | file =>
      "M14 2H6c-1.1 0-1.99.9-1.99 2L4 20c0 1.1.89 2 1.99 2H18c1.1 0 2-.9 2-2V8l-6-6zM6 20V4h7v5h5v11H6z"
  | folder =>
      "M10 4H4c-1.1 0-1.99.9-1.99 2L2 18c0 1.1.9 2 2 2h16c1.1 0 2-.9 2-2V8c0-1.1-.9-2-2-2h-8l-2-2z"
  | app =>
      "M19 3H5c-1.1 0-2 .9-2 2v14c0 1.1.9 2 2 2h14c1.1 0 2-.9 2-2V5c0-1.1-.9-2-2-2zm0 16H5V5h14v14zM12 8c-1.1 0-2 .9-2 2s.9 2 2 2 2-.9 2-2-.9-2-2-2zm0 10c-2.2 0-4-1.8-4-4s1.8-4 4-4 4 1.8 4 4-1.8 4-4 4z"
  end.

(** The scroll effect (lines 104-111): the row [scrollIntoView] is called
    on, if any.  [resultsRef.current] is the list element, which is on the
    page when [results] is not empty; its children are the rows. *)
Definition scrollTarget (s : State) : option Row :=
  if (selectedIndex s >=? 0) && (0 <? len (results s))
  then index (renderRows s) (selectedIndex s)
  else None.

(** ** More vocabulary *)

(** The event is the toggle hotkey: Ctrl+Space with neither Shift nor Alt. *)
Definition is_hotkey (e : KeyboardEvent) : bool :=
  String.eqb (key e) " " && Bool.eqb (ctrlKey e) true
  && Bool.eqb (shiftKey e) false && Bool.eqb (altKey e) false.

(** The keys [handleKeyDown] reacts to. *)
Definition is_navigation_key (k : string) : bool :=
  String.eqb k "Escape" || String.eqb k "ArrowDown"
  || String.eqb k "ArrowUp" || String.eqb k "Enter".

(** The call [handleResultClick] makes for a result. *)
Definition activation (r : SearchResult) : Invocation :=
  mkInvocation
    (match type r with app => launch_app | file => open_path | folder => open_path end)
    (path r).

(** What one event may send to the backend from state [s]: nothing, the
    activation of a result on display, or the search for the text the armed
    timer closed over, which then has two characters at least. *)
Inductive Issued (s : State) : list Invocation -> Prop :=
| issued_nothing : Issued s []
| issued_activation (r : SearchResult) :
    In r (results s) -> Issued s [activation r]
| issued_search (t : Timer) :
    debounceTimer s = Some t ->
    (2 <= String.length (captured t))%nat ->
    Issued s [mkInvocation search (captured t)].

(** An armed timer closed over the text of the field, which is not blank,
    and is due within the next 200 ms. *)
Definition timer_well_formed (s : State) : Prop :=
  match debounceTimer s with
  | Some t =>
      captured t = searchQuery s /\ blank (captured t) = false /\
      (clock s < due t <= clock s + 200)%nat
  | None => True
  end.

(** Every search sent so far was for a text of two characters at least
    that is not blank. *)
Definition searches_well_formed (s : State) : Prop :=
  forall i : Invocation,
    In i (invocations s) -> command i = search ->
    (2 <= String.length (argument i))%nat /\ blank (argument i) = false.

(** Every character of the text is white space. *)
Fixpoint all_white_space (q : string) : bool :=
  match q with
  | EmptyString => true
  | String c rest => is_white_space c && all_white_space rest
  end.

(** * The browser's timers

    [State] keeps one slot for the armed timer.  That is all the component
    ever has armed only because the effect clears the timer it holds before
    it arms another (lines 53-55 and 76-80).  The model of this section does
    not take that for granted: the browser keeps a list of active timeouts,
    [setTimeout] adds to it and hands out a fresh handle, [clearTimeout]
    removes the timeout of a handle, and every timeout left in the list
    fires when it is due.  The ref [debounceTimer] holds a handle. *)

Module Browser.

(** The component, the handle in [debounceTimer.current], the browser's
    active timeouts under their handles and in the order they were set, and
    the next handle.  The functions of this module neither read nor write
    the slot [debounceTimer] of [component]: the handle and the list stand in
    its place. *)
Record Page : Type := mkPage {
  component  : State;
  current    : option nat;
  timeouts   : list (nat * Timer);
  nextHandle : nat
}.

(** The page at mount.  Handles are positive integers. *)
Definition mounted : Page := mkPage initial None [] 1.

(** [clearTimeout(h)]: the timeout of handle [h], if it is still active, is
    dropped; any other handle is ignored. *)
Definition clearTimeout (h : nat) (p : Page) : Page :=
  mkPage (component p) (current p)
         (filter (fun e => negb (fst e =? h)%nat) (timeouts p))
         (nextHandle p).

(** [if (debounceTimer.current) { clearTimeout(debounceTimer.current); }]
    (lines 53-55 and 77-79); [null] and 0 are falsy. *)
Definition clearDebounceTimer (p : Page) : Page :=
  match current p with
  | Some h => if (h =? 0)%nat then p else clearTimeout h p
  | None => p
  end.

(** [setTimeout(callback, delay)], the callback having closed over [q]: the
    handle it returns and the page with the new timeout. *)
Definition setTimeout (delay : nat) (q : string) (p : Page) : nat * Page :=
  (nextHandle p,
   mkPage (component p) (current p)
          (timeouts p ++ [(nextHandle p,
                           mkTimer (clock (component p) + delay)%nat q)])
          (S (nextHandle p))).

(** The effect on [searchQuery] (lines 52-81), preceded by the cleanup its
    previous run returned (lines 76-80).  A run that found the text blank
    returned none; the first statement of the body does the same clear. *)
Definition searchEffect (p : Page) : Page :=
  let p := clearDebounceTimer p in
  let p := clearDebounceTimer p in
  if String.eqb (trim (searchQuery (component p))) "" then
    mkPage (setSelectedIndex (-1) (setResults [] (component p)))
           (current p) (timeouts p) (nextHandle p)
  else
    let (h, p) := setTimeout 200 (searchQuery (component p)) p in
    mkPage (component p) (Some h) (timeouts p) (nextHandle p).

(** React runs the effect after an event that changed [searchQuery]. *)
Definition commit (before after : Page) : Page :=
  if String.eqb (searchQuery (component before)) (searchQuery (component after))
  then after
  else searchEffect after.

(** The timeouts that are due fire, each running the timer callback on the
    text it closed over, and leave the list; the others stay.  The list is
    in the order the timeouts were set, which is the order they come due,
    every delay being the same. *)
Fixpoint fire (now : nat) (ts : list (nat * Timer)) (s : State)
  : list (nat * Timer) * State :=
  match ts with
  | [] => ([], s)
  | (h, t) :: rest =>
      if (due t <=? now)%nat
      then fire now rest (timerCallback (captured t) s)
      else let (rest', s') := fire now rest s in ((h, t) :: rest', s')
  end.

Definition elapse (ms : nat) (p : Page) : Page :=
  let now := (clock (component p) + ms)%nat in
  let (ts, s) := fire now (timeouts p) (setClock now (component p)) in
  mkPage s (current p) ts (nextHandle p).

(** The handlers of keys, edits, clicks and settled promises are those of
    the component; they do not touch the timers. *)
Definition handle (ev : Event) (p : Page) : Page :=
  match ev with
  | Elapse ms => elapse ms p
  | _ => mkPage (handle ev (component p)) (current p) (timeouts p) (nextHandle p)
  end.

Definition step (p : Page) (ev : Event) : Page := commit p (handle ev p).

Definition run (evs : list Event) (p : Page) : Page := fold_left step evs p.

Definition reachable (p : Page) : Prop := exists evs, p = run evs mounted.

End Browser.

(** The page seen through the one slot of [State]: the slot holds the first
    active timeout. *)
Definition slot (p : Browser.Page) : State :=
  setDebounceTimer
    (match Browser.timeouts p with
     | (_, t) :: _ => Some t
     | [] => None
     end)
    (Browser.component p).

(** At most one timeout is active, and it is the one whose handle the ref
    holds. *)
Definition one_timeout (p : Browser.Page) : Prop :=
  Browser.nextHandle p <> 0%nat /\
  (Browser.timeouts p = [] \/
   exists (h : nat) (t : Timer),
     Browser.timeouts p = [(h, t)] /\ Browser.current p = Some h /\ h <> 0%nat).

(** The searches among the calls made so far. *)
Definition is_search (i : Invocation) : bool :=
  match command i with
  | search => true
  | _ => false
  end.

Definition searches (s : State) : list Invocation :=
  filter is_search (invocations s).

(** The event leaves the text of the field alone: it is neither an edit
    nor the hotkey. *)
Definition keeps_text (ev : Event) : bool :=
  match ev with
  | InputChange _ => false
  | KeyDown e => negb (is_hotkey e)
  | _ => true
  end.

(** The time that passes during a run of events. *)
Fixpoint elapsed (evs : list Event) : nat :=
  match evs with
  | [] => 0
  | Elapse ms :: rest => ms + elapsed rest
  | _ :: rest => elapsed rest
  end.

(** The search a text is good for: none if it has fewer than two
    characters. *)
Definition search_for (q : string) : list Invocation :=
  if (String.length q <? 2)%nat then [] else [mkInvocation search q].

(** The state of the component some time after the last edit, which left
    the text [q], a timer due at [d] unless [q] is blank, and the searches
    [sent]: either the timer is still armed and nothing more was sent, or it
    is past due, gone, and the search for [q] was sent. *)
Definition after_edit (q : string) (d : nat) (sent : list Invocation)
    (s : State) : Prop :=
  searchQuery s = q /\
  if blank q then (debounceTimer s = None /\ searches s = sent)
  else
    (((clock s < d)%nat /\ debounceTimer s = Some (mkTimer d q) /\
      searches s = sent) \/
     ((d <= clock s)%nat /\ debounceTimer s = None /\
      searches s = (sent ++ search_for q)%list)).

(** * Properties *)

#[local] Arguments Nat.ltb : simpl never.

(** ** Basic facts about the handlers *)

Lemma len_nil (A : Type) : len (@nil A) = 0.
Proof. reflexivity. Qed.

Lemma len_nonneg (A : Type) (l : list A) : 0 <= len l.
Proof. unfold len. lia. Qed.

Lemma index_Some (A : Type) (l : list A) (i : Z) (x : A) :
  index l i = Some x -> 0 <= i < len l.
Proof.
  unfold index, len. destruct (Z.ltb_spec i 0) as [Hneg | Hpos]; [discriminate |].
  intros H. assert (Hlt : (Z.to_nat i < List.length l)%nat).
  { apply nth_error_Some. rewrite H. discriminate. }
  lia.
Qed.

Lemma index_None (A : Type) (l : list A) (i : Z) :
  index l i = None -> i < 0 \/ len l <= i.
Proof.
  unfold index, len. destruct (Z.ltb_spec i 0) as [Hneg | Hpos]; [now left |].
  intros H. apply nth_error_None in H. right. lia.
Qed.

(** The effects run after an event when the query text is the same. *)
Lemma commit_same_query (before after : State) :
  searchQuery after = searchQuery before -> commit before after = after.
Proof.
  intros H. unfold commit. rewrite H, String.eqb_refl. reflexivity.
Qed.

Lemma commit_new_query (before after : State) :
  searchQuery after <> searchQuery before ->
  commit before after = searchEffect after.
Proof.
  intros H. unfold commit.
  destruct (String.eqb_spec (searchQuery before) (searchQuery after)) as [E | E].
  - congruence.
  - reflexivity.
Qed.

Lemma handleResultClick_query (r : SearchResult) (s : State) :
  searchQuery (handleResultClick r s) = searchQuery s.
Proof. unfold handleResultClick. destruct (type r); reflexivity. Qed.

(** Every key but Ctrl+Space leaves the shortcut silent. *)
Lemma shortcut_other_key (e : KeyboardEvent) (s : State) :
  key e <> " " -> shortcut e s = s.
Proof.
  intros H. unfold shortcut, useKeyboardShortcut.
  destruct (String.eqb_spec (key e) " ") as [E | E]; [contradiction | reflexivity].
Qed.

(** The two arrow keys, as the source clamps them. *)
Lemma arrow_down_step (s : State) (c sh a : bool) :
  isVisible s = true ->
  step s (KeyDown (mkKey "ArrowDown" c sh a)) =
  setSelectedIndex (Z.min (selectedIndex s + 1) (len (results s) - 1)) s.
Proof.
  intros V. unfold step, handle. rewrite shortcut_other_key by (cbn; discriminate).
  unfold handleKeyDown. rewrite V. cbn. apply commit_same_query. reflexivity.
Qed.

Lemma arrow_up_step (s : State) (c sh a : bool) :
  isVisible s = true ->
  step s (KeyDown (mkKey "ArrowUp" c sh a)) =
  setSelectedIndex (Z.max (selectedIndex s - 1) (-1)) s.
Proof.
  intros V. unfold step, handle. rewrite shortcut_other_key by (cbn; discriminate).
  unfold handleKeyDown. rewrite V. cbn. apply commit_same_query. reflexivity.
Qed.

(** From a selection in range the arrows stay in range. *)
Lemma arrows_keep_range (s : State) (k : string) (c sh a : bool) :
  k = "ArrowDown" \/ k = "ArrowUp" ->
  selection_in_range s ->
  selection_in_range (step s (KeyDown (mkKey k c sh a))).
Proof.
  intros Hk R. destruct (isVisible s) eqn:V.
  - destruct Hk as [-> | ->];
      [rewrite arrow_down_step by assumption | rewrite arrow_up_step by assumption];
      unfold selection_in_range in *; cbn; lia.
  - assert (E : step s (KeyDown (mkKey k c sh a)) = s).
    { unfold step, handle. rewrite shortcut_other_key by (destruct Hk as [-> | ->]; cbn; discriminate).
      unfold handleKeyDown. rewrite V. cbn. apply commit_same_query. reflexivity. }
    rewrite E. exact R.
Qed.

(** The toggle clears the query, the results and the selection, whether it
    opens the overlay or closes it. *)
Lemma toggle_resets (s : State) :
  let s' := step s ctrlSpace in
  isVisible s' = negb (isVisible s) /\ searchQuery s' = "" /\
  results s' = [] /\ selectedIndex s' = -1.
Proof.
  unfold step, handle, ctrlSpace.
  assert (H : handleKeyDown (mkKey " " true false false) s = s).
  { unfold handleKeyDown. destruct (isVisible s); reflexivity. }
  rewrite H.
  unfold commit, shortcut, useKeyboardShortcut. cbn.
  destruct (String.eqb (searchQuery s) ""); cbn; auto.
Qed.

(** Closing with the toggle clears the query, which makes the effect cancel
    the armed timer; closing with Escape leaves the query, and the timer
    fires while the overlay is hidden. *)
Lemma escape_leaves_timer_running :
  invocations (run [ctrlSpace; InputChange "report"; ctrlSpace; Elapse 200] initial)
    = [] /\
  invocations (run [ctrlSpace; InputChange "report"; press "Escape"; Elapse 200] initial)
    = [mkInvocation search "report"].
Proof. split; reflexivity. Qed.

(** Completing a search writes [results] and [isSearching] and nothing else
    of the hooks: the selection is the one it was. *)
Lemma searchCompleted_selectedIndex (rs : list SearchResult) (s : State) :
  selectedIndex (searchCompleted rs s) = selectedIndex s.
Proof. reflexivity. Qed.

Lemma searchSettled_results (o : Outcome) (s : State) :
  results (searchSettled o s) =
  match o with Resolved rs => rs | Rejected _ => [] end.
Proof. destruct o; reflexivity. Qed.

Lemma searchSettled_selectedIndex (o : Outcome) (s : State) :
  selectedIndex (searchSettled o s) = selectedIndex s.
Proof. destruct o; reflexivity. Qed.

(** ** The debounce timer *)

Lemma searchEffect_restarts (s : State) :
  window_restarted (searchQuery s) (searchEffect s).
Proof.
  unfold window_restarted, searchEffect, blank. cbn.
  destruct (String.eqb (trim (searchQuery s)) ""); cbn; auto.
Qed.

Lemma searchEffect_invocations (s : State) :
  invocations (searchEffect s) = invocations s.
Proof.
  unfold searchEffect. cbn.
  destruct (String.eqb (trim (searchQuery s)) ""); reflexivity.
Qed.

(** Typing a different text cancels the timer and restarts the window. *)
Lemma input_change_restarts (s : State) (q : string) :
  q <> searchQuery s ->
  window_restarted q (step s (InputChange q)) /\
  invocations (step s (InputChange q)) = invocations s.
Proof.
  intros H. unfold step, handle.
  rewrite commit_new_query by (cbn; exact H). split.
  - apply (searchEffect_restarts (setSearchQuery q s)).
  - rewrite searchEffect_invocations. reflexivity.
Qed.

Lemma timer_matches_commit (before after : State) :
  timer_matches_query before ->
  debounceTimer after = debounceTimer before \/ debounceTimer after = None ->
  timer_matches_query (commit before after).
Proof.
  intros M H. unfold commit.
  destruct (String.eqb_spec (searchQuery before) (searchQuery after)) as [E | E].
  - unfold timer_matches_query in *. destruct H as [-> | ->]; [| exact I].
    rewrite <- E. exact M.
  - destruct (searchEffect_restarts after) as [Q T].
    unfold timer_matches_query. rewrite T, Q.
    destruct (blank (searchQuery after)); cbn; auto.
Qed.

Lemma timerCallback_timer (q : string) (s : State) :
  debounceTimer (timerCallback q s) = debounceTimer s.
Proof. unfold timerCallback. destruct (performSearch q); reflexivity. Qed.

Lemma handle_timer (ev : Event) (s : State) :
  debounceTimer (handle ev s) = debounceTimer s \/
  debounceTimer (handle ev s) = None.
Proof.
  destruct ev as [e | v | row | n o | ms]; cbn.
  - left. unfold shortcut, useKeyboardShortcut, handleKeyDown, handleResultClick.
    repeat match goal with
           | |- context [if ?b then _ else _] => destruct b
           | |- context [match ?x with _ => _ end] => destruct x
           end; reflexivity.
  - left. reflexivity.
  - left. destruct (nth_error (results s) row) as [r |]; [| reflexivity].
    unfold handleResultClick. destruct (type r); reflexivity.
  - left. unfold settle. destruct (nth_error (pending s) n) as [i |]; [| reflexivity].
    destruct (command i), o; reflexivity.
  - unfold elapse. cbn. destruct (debounceTimer s) as [t |] eqn:T; cbn.
    + destruct (due t <=? clock s + ms)%nat; [right | left; cbn; congruence].
      rewrite timerCallback_timer. reflexivity.
    + left. cbn. congruence.
Qed.

Lemma step_timer_matches (s : State) (ev : Event) :
  timer_matches_query s -> timer_matches_query (step s ev).
Proof.
  intros M. unfold step. apply timer_matches_commit; [exact M | apply handle_timer].
Qed.

Lemma run_snoc (evs : list Event) (ev : Event) (s : State) :
  run (evs ++ [ev]) s = step (run evs s) ev.
Proof. unfold run. rewrite fold_left_app. reflexivity. Qed.

(** In every state the component can be in, a pending timer carries the
    query on display. *)
Lemma reachable_timer_matches (s : State) :
  reachable s -> timer_matches_query s.
Proof.
  intros [evs ->]. induction evs as [| ev evs IH] using rev_ind.
  - exact I.
  - rewrite run_snoc. apply step_timer_matches, IH.
Qed.

Lemma elapse_within_window (q : string) (s : State) (gap : nat) :
  window_restarted q s -> (gap < 200)%nat ->
  searchQuery (step s (Elapse gap)) = q /\
  invocations (step s (Elapse gap)) = invocations s.
Proof.
  intros [Q T] G.
  assert (E : handle (Elapse gap) s = setClock (clock s + gap)%nat s).
  { cbn. unfold elapse. cbn. rewrite T. destruct (blank q); [reflexivity |].
    cbn. destruct (Nat.leb_spec (clock s + 200) (clock s + gap)); [lia | reflexivity]. }
  unfold step. rewrite E, commit_same_query by reflexivity. cbn. auto.
Qed.

(** What a full window of silence sends to the engine. *)
Lemma elapse_after_window (q : string) (s : State) (quiet : nat) :
  window_restarted q s -> (200 <= quiet)%nat ->
  invocations (step s (Elapse quiet)) =
  (invocations s ++
    (if blank q || (String.length q <? 2)%nat then []
     else [mkInvocation search q]))%list.
Proof.
  intros [Q T] G. unfold step.
  assert (E : searchQuery (handle (Elapse quiet) s) = searchQuery s).
  { cbn. unfold elapse. cbn. destruct (debounceTimer s) as [t |]; [| reflexivity].
    destruct (due t <=? clock s + quiet)%nat; [| reflexivity].
    unfold timerCallback. destruct (performSearch (captured t)); reflexivity. }
  rewrite commit_same_query by exact E.
  cbn. unfold elapse. cbn. rewrite T. destruct (blank q); cbn.
  - rewrite app_nil_r. reflexivity.
  - destruct (Nat.leb_spec (clock s + 200) (clock s + quiet)); [| lia].
    unfold timerCallback, performSearch.
    destruct (String.length q <? 2)%nat; cbn.
    + rewrite app_nil_r. reflexivity.
    + reflexivity.
Qed.

Lemma burst_keeps_silent (edits : list (nat * string)) :
  forall (q : string) (s : State),
    window_restarted q s -> rapid q edits ->
    window_restarted (final_query q edits) (run (keystrokes edits) s) /\
    invocations (run (keystrokes edits) s) = invocations s.
Proof.
  induction edits as [| [gap q'] rest IH]; intros q s W R.
  - cbn. auto.
  - destruct R as (G & N & R). cbn in G, N, R.
    destruct (elapse_within_window q s gap W G) as [Q1 I1].
    destruct (input_change_restarts (step s (Elapse gap)) q') as [W2 I2];
      [congruence |].
    destruct (IH q' _ W2 R) as [W3 I3].
    change (run (keystrokes ((gap, q') :: rest)) s)
      with (run (keystrokes rest) (step (step s (Elapse gap)) (InputChange q'))).
    change (final_query q ((gap, q') :: rest)) with (final_query q' rest).
    split; [exact W3 | congruence].
Qed.

(** ** The minimum-length gate *)

Lemma quiet_overlay_is_OpenEmpty (q : string) (s : State) :
  (String.length q < 2)%nat -> quiet_overlay q s -> overlayState s = OpenEmpty.
Proof.
  intros L (V & B & R & Q).
  assert (G : (2 <=? String.length q)%nat = false) by (apply Nat.leb_gt; exact L).
  unfold overlayState, render. cbn [spinner resultRows noResults].
  rewrite V, B, R, Q, G. reflexivity.
Qed.

Lemma OpenEmpty_inv (s : State) :
  overlayState s = OpenEmpty ->
  isVisible s = true /\ isSearching s = false /\ results s = [].
Proof.
  unfold overlayState, render. cbn [spinner resultRows noResults].
  destruct (isVisible s); cbn [negb]; [| discriminate].
  destruct (isSearching s); [discriminate |].
  destruct (results s); [auto | discriminate].
Qed.

Lemma quiet_overlay_renders_nothing (q : string) (s : State) :
  (String.length q < 2)%nat -> quiet_overlay q s ->
  render s = mkView false None [] None.
Proof.
  intros L (V & B & R & Q).
  assert (G : (2 <=? String.length q)%nat = false) by (apply Nat.leb_gt; exact L).
  unfold render. rewrite B, R, Q, G. reflexivity.
Qed.

Lemma input_change_short (s : State) (q : string) :
  isVisible s = true -> isSearching s = false -> results s = [] ->
  quiet_overlay q (step s (InputChange q)) /\
  invocations (step s (InputChange q)) = invocations s.
Proof.
  intros V B R. unfold step, handle, commit, searchEffect, quiet_overlay. cbn.
  destruct (String.eqb (searchQuery s) q);
    [| destruct (String.eqb (trim q) "")]; cbn; auto.
Qed.

Lemma elapse_short (s : State) (q : string) (ms : nat) :
  (String.length q < 2)%nat -> timer_matches_query s -> quiet_overlay q s ->
  quiet_overlay q (step s (Elapse ms)) /\
  invocations (step s (Elapse ms)) = invocations s.
Proof.
  intros L M (V & B & R & Q).
  assert (P : performSearch q = ReturnNow []).
  { unfold performSearch. destruct (Nat.ltb_spec (String.length q) 2); [reflexivity | lia]. }
  assert (E : quiet_overlay q (handle (Elapse ms) s) /\
              invocations (handle (Elapse ms) s) = invocations s).
  { unfold quiet_overlay. cbn. unfold elapse. cbn.
    unfold timer_matches_query in M.
    destruct (debounceTimer s) as [t |]; [| cbn; auto].
    destruct (due t <=? clock s + ms)%nat; [| cbn; auto].
    unfold timerCallback. rewrite M, Q, P. cbn. auto. }
  destruct E as [(V' & B' & R' & Q') I'].
  unfold step. rewrite commit_same_query by congruence.
  unfold quiet_overlay. auto.
Qed.

(** ** The selection and the events that do not complete a search *)

Lemma commit_keeps_range (before after : State) :
  selection_in_range after -> selection_in_range (commit before after).
Proof.
  intros R. unfold commit.
  destruct (String.eqb (searchQuery before) (searchQuery after)); [exact R |].
  unfold searchEffect, selection_in_range in *. cbn.
  destruct (String.eqb (trim (searchQuery after)) ""); cbn; [lia | exact R].
Qed.

Lemma handleResultClick_keeps_range (r : SearchResult) (s : State) :
  selection_in_range s -> selection_in_range (handleResultClick r s).
Proof. unfold handleResultClick, selection_in_range. destruct (type r); cbn; auto. Qed.

Lemma handleKeyDown_keeps_range (e : KeyboardEvent) (s : State) :
  selection_in_range s -> selection_in_range (handleKeyDown e s).
Proof.
  intros R. unfold handleKeyDown.
  destruct (negb (isVisible s)); [exact R |].
  destruct (String.eqb (key e) "Escape"); [exact R |].
  destruct (String.eqb (key e) "ArrowDown").
  { unfold selection_in_range in *. cbn. lia. }
  destruct (String.eqb (key e) "ArrowUp").
  { unfold selection_in_range in *. cbn. lia. }
  destruct (String.eqb (key e) "Enter" && (selectedIndex s >=? 0)); [| exact R].
  destruct (index (results s) (selectedIndex s)) as [r |]; [| exact R].
  apply handleResultClick_keeps_range, R.
Qed.

Lemma shortcut_keeps_range (e : KeyboardEvent) (s : State) :
  selection_in_range s -> selection_in_range (shortcut e s).
Proof.
  intros R. unfold shortcut, useKeyboardShortcut.
  destruct (String.eqb (key e) " " && Bool.eqb (ctrlKey e) true
            && Bool.eqb (shiftKey e) false && Bool.eqb (altKey e) false);
    [| exact R].
  unfold selection_in_range. cbn. lia.
Qed.

(** Keys, typing, clicks and settled activations keep the selection inside
    [results]; only the timer callback can take it out. *)
Lemma step_keeps_range (s : State) (ev : Event) :
  selection_in_range s -> search_progresses s ev = false ->
  selection_in_range (step s ev).
Proof.
  intros R P. unfold step. apply commit_keeps_range.
  destruct ev as [e | v | row | n o | ms]; cbn in *.
  - apply shortcut_keeps_range, handleKeyDown_keeps_range, R.
  - exact R.
  - destruct (nth_error (results s) row) as [r |]; [| exact R].
    apply handleResultClick_keeps_range, R.
  - unfold settle. destruct (nth_error (pending s) n) as [[c a] |]; [| exact R].
    destruct c; [discriminate | |]; destruct o; exact R.
  - unfold elapse. cbn. destruct (debounceTimer s) as [t |]; [| exact R].
    rewrite P. exact R.
Qed.

(** ** Settled searches *)

(** A search that resolves replaces [results] by its payload, whatever the
    text of the field has become since the request was made. *)
Lemma search_response_always_applied
    (s : State) (n : nat) (q : string) (rs : list SearchResult) :
  nth_error (pending s) n = Some (mkInvocation search q) ->
  results (step s (Settle n (Resolved rs))) = rs /\
  selectedIndex (step s (Settle n (Resolved rs))) = selectedIndex s.
Proof.
  intros H. unfold step. rewrite commit_same_query.
  - cbn. unfold settle. rewrite H. cbn. auto.
  - cbn. unfold settle. rewrite H. reflexivity.
Qed.

(** The score label of a score that is there and is not zero, and of a
    score that is not there. *)
Lemma renderScore_nonzero (r : SearchResult) (x : Q) :
  score r = Some x -> ~ x == 0 ->
  renderScore r =
  ScoreSpan (number_to_string (Math_round (number_mul x 100)) ++ "%").
Proof.
  intros H N. unfold renderScore. rewrite H.
  destruct (Qeq_bool x 0) eqn:E; [| reflexivity].
  apply Qeq_bool_eq in E. contradiction.
Qed.

Lemma renderScore_absent (r : SearchResult) :
  score r = None -> renderScore r = Nothing.
Proof. intros H. unfold renderScore. rewrite H. reflexivity. Qed.

(** ** Waiting, in one lapse or in several *)

Lemma elapse_query (ms : nat) (s : State) :
  searchQuery (elapse ms s) = searchQuery s.
Proof.
  unfold elapse. cbn. destruct (debounceTimer s) as [t |]; [| reflexivity].
  destruct (due t <=? clock s + ms)%nat; [| reflexivity].
  unfold timerCallback. destruct (performSearch (captured t)); reflexivity.
Qed.

Lemma elapse_step (s : State) (ms : nat) : step s (Elapse ms) = elapse ms s.
Proof. unfold step. cbn [handle]. apply commit_same_query, elapse_query. Qed.

(** Two lapses in a row do what one lapse of their sum does: a timer fires
    once, when it is due, and the callback does not arm another. *)
Lemma elapse_additive (s : State) (a b : nat) :
  elapse b (elapse a s) = elapse (a + b) s.
Proof.
  unfold elapse. cbn [debounceTimer setClock clock].
  rewrite (Nat.add_assoc (clock s) a b).
  destruct (debounceTimer s) as [t |] eqn:T.
  - destruct (Nat.leb_spec (due t) (clock s + a)) as [D | D].
    + rewrite timerCallback_timer. cbn [debounceTimer setDebounceTimer].
      destruct (Nat.leb_spec (due t) (clock s + a + b)) as [_ | D']; [| lia].
      unfold timerCallback. destruct (performSearch (captured t)); reflexivity.
    + cbn [debounceTimer setClock clock]. rewrite T.
      destruct (due t <=? clock s + a + b)%nat; [| reflexivity].
      unfold timerCallback. destruct (performSearch (captured t)); reflexivity.
  - cbn. rewrite T. reflexivity.
Qed.

(** ** The one slot is all the browser holds *)

Lemma timerCallback_ignores_slot (q : string) (x : option Timer) (s : State) :
  timerCallback q (setDebounceTimer x s) = setDebounceTimer x (timerCallback q s).
Proof. unfold timerCallback. destruct (performSearch q); reflexivity. Qed.

Lemma handleKeyDown_ignores_slot (e : KeyboardEvent) (x : option Timer) (s : State) :
  handleKeyDown e (setDebounceTimer x s) = setDebounceTimer x (handleKeyDown e s).
Proof.
  unfold handleKeyDown, handleResultClick. cbn.
  repeat match goal with
         | |- context [if ?b then _ else _] => destruct b
         | |- context [match ?y with _ => _ end] => destruct y
         end; reflexivity.
Qed.

(** The handlers of keys, edits, clicks and settled promises neither read
    nor write the timer. *)
Lemma handle_ignores_slot (ev : Event) (x : option Timer) (s : State) :
  (forall ms, ev <> Elapse ms) ->
  handle ev (setDebounceTimer x s) = setDebounceTimer x (handle ev s).
Proof.
  intros N. destruct ev as [e | v | row | n o | ms]; cbn [handle].
  - rewrite handleKeyDown_ignores_slot. unfold shortcut, useKeyboardShortcut.
    destruct (String.eqb (key e) " " && Bool.eqb (ctrlKey e) true
              && Bool.eqb (shiftKey e) false && Bool.eqb (altKey e) false);
      reflexivity.
  - reflexivity.
  - cbn. destruct (nth_error (results s) row) as [r |]; [| reflexivity].
    unfold handleResultClick. destruct (type r); reflexivity.
  - unfold settle. cbn. destruct (nth_error (pending s) n) as [i |]; [| reflexivity].
    destruct (command i), o; reflexivity.
  - exfalso. exact (N ms eq_refl).
Qed.

Lemma slot_query (p : Browser.Page) :
  searchQuery (slot p) = searchQuery (Browser.component p).
Proof. reflexivity. Qed.

Lemma slot_timer (p : Browser.Page) :
  debounceTimer (slot p) =
  match Browser.timeouts p with
  | (_, t) :: _ => Some t
  | [] => None
  end.
Proof. reflexivity. Qed.

Lemma slot_clock (p : Browser.Page) :
  clock (slot p) = clock (Browser.component p).
Proof. reflexivity. Qed.

Lemma slot_invocations (p : Browser.Page) :
  invocations (slot p) = invocations (Browser.component p).
Proof. reflexivity. Qed.

Lemma simulation_handle (p : Browser.Page) (ev : Event) :
  one_timeout p ->
  one_timeout (Browser.handle ev p) /\
  slot (Browser.handle ev p) = handle ev (slot p).
Proof.
  intros [H O].
  destruct ev as [e | v | row | n o | ms];
    try (split; [exact (conj H O) |];
         unfold slot; cbn [Browser.handle Browser.timeouts Browser.component];
         symmetry; apply handle_ignores_slot; discriminate).
  cbn [Browser.handle handle]. unfold Browser.elapse, elapse, slot.
  destruct O as [E | (h & t & E & C & Hh)]; rewrite E; cbn.
  - split; [split; [exact H | now left] | reflexivity].
  - destruct (due t <=? clock (Browser.component p) + ms)%nat; cbn.
    + split; [split; [exact H | now left] |].
      rewrite <- timerCallback_ignores_slot. reflexivity.
    + split; [| reflexivity]. split; [exact H |]. right. exists h, t. auto.
Qed.

Lemma clearDebounceTimer_empties (p : Browser.Page) :
  one_timeout p ->
  Browser.clearDebounceTimer p =
  Browser.mkPage (Browser.component p) (Browser.current p) []
                 (Browser.nextHandle p).
Proof.
  intros [H O]. unfold Browser.clearDebounceTimer, Browser.clearTimeout.
  destruct O as [E | (h & t & E & C & Hh)].
  - destruct p as [c cur ts nh]. cbn in *. subst ts.
    destruct cur as [h |]; [destruct (h =? 0)%nat |]; reflexivity.
  - rewrite C, E. destruct (Nat.eqb_spec h 0) as [Z | _]; [contradiction |].
    cbn. rewrite Nat.eqb_refl. reflexivity.
Qed.

(** The effect of the browser model does what the effect of the one-slot
    model does, and leaves one timeout at most. *)
Lemma simulation_searchEffect (p : Browser.Page) :
  one_timeout p ->
  one_timeout (Browser.searchEffect p) /\
  slot (Browser.searchEffect p) = searchEffect (slot p).
Proof.
  intros O. pose proof O as [H _]. unfold Browser.searchEffect.
  rewrite (clearDebounceTimer_empties p O).
  rewrite clearDebounceTimer_empties by (split; [exact H | now left]).
  cbn [Browser.component Browser.current Browser.timeouts Browser.nextHandle].
  unfold searchEffect, slot. cbn.
  destruct (String.eqb (trim (searchQuery (Browser.component p))) ""); cbn.
  - split; [split; [exact H | now left] | reflexivity].
  - split; [| reflexivity]. split; [discriminate |].
    right. eexists _, _. repeat split. exact H.
Qed.

Lemma simulation_step (p : Browser.Page) (ev : Event) :
  one_timeout p ->
  one_timeout (Browser.step p ev) /\
  slot (Browser.step p ev) = step (slot p) ev.
Proof.
  intros O. destruct (simulation_handle p ev O) as [O' E'].
  unfold Browser.step, Browser.commit, step, commit.
  rewrite <- E', !slot_query.
  destruct (String.eqb (searchQuery (Browser.component p))
                       (searchQuery (Browser.component (Browser.handle ev p)))).
  - split; [exact O' | reflexivity].
  - apply simulation_searchEffect, O'.
Qed.

(** Whatever the events, the browser never holds more than the one timeout
    of the slot, and the component behaves as the one-slot model says. *)
Lemma simulation_run (evs : list Event) :
  forall p : Browser.Page,
    one_timeout p ->
    one_timeout (Browser.run evs p) /\
    slot (Browser.run evs p) = run evs (slot p).
Proof.
  induction evs as [| ev evs IH]; intros p O.
  - split; [exact O | reflexivity].
  - destruct (simulation_step p ev O) as [O' E'].
    destruct (IH _ O') as [O'' E''].
    change (Browser.run (ev :: evs) p) with (Browser.run evs (Browser.step p ev)).
    change (run (ev :: evs) (slot p)) with (run evs (step (slot p) ev)).
    split; [exact O'' |]. rewrite E'', E'. reflexivity.
Qed.

Lemma reachable_one_timeout (p : Browser.Page) :
  Browser.reachable p -> one_timeout p.
Proof.
  intros [evs ->]. apply simulation_run. split; [discriminate | now left].
Qed.

(** ** The claims *)

(** C1 (the code departs from the claim).  The query goes from "abc" to
    "abcd" while the request for "abc" is in flight, and the answer for
    "abcd" arrives first.  When the answer for "abc" arrives late it is not
    discarded: it replaces the results of "abcd" although the field still
    reads "abcd". *)
Theorem stale_response_overwrites_results :
  let newer := run abcd_answered initial in
  let late := step newer (Settle 0 (Resolved [abc_hit])) in
  invocations newer = [mkInvocation search "abc"; mkInvocation search "abcd"] /\
  pending newer = [mkInvocation search "abc"] /\
  searchQuery newer = "abcd" /\ results newer = [abcd_hit] /\
  searchQuery late = "abcd" /\ results late = [abc_hit].
Proof. cbv zeta. repeat split; reflexivity. Qed.

(** C2 (the code departs from the claim).  A state the component reaches in
    which the selection is not below the number of results: the cursor was
    on the third of three rows when a one-row answer replaced them. *)
Theorem selection_leaves_range :
  let s := run (cursor_on_last_row ++ [Settle 0 (Resolved [reports_dir])]) initial in
  reachable s /\ isVisible s = true /\
  selectedIndex s = 2 /\ len (results s) = 1 /\ ~ selection_in_range s.
Proof.
  cbv zeta. split; [eexists; reflexivity |].
  repeat split; try reflexivity.
  unfold selection_in_range.
  match goal with
  | |- ~ (_ <= selectedIndex ?s < len (results ?s)) =>
      change (selectedIndex s) with 2; change (len (results s)) with 1
  end.
  lia.
Qed.

(** C3 (the code departs from the claim).  When a search completes and
    [results] is replaced by the answer, or by the empty list after a
    failure, the selection is not put back to -1: it keeps the value it had,
    here 2. *)
Theorem completion_keeps_selection :
  let before := run cursor_on_last_row initial in
  let answered := step before (Settle 0 (Resolved [reports_dir])) in
  let failed := step before (Settle 0 (Rejected "engine down")) in
  results before = [notes_txt; reports_dir; reporter_exe] /\
  selectedIndex before = 2 /\
  results answered = [reports_dir] /\ selectedIndex answered = 2 /\
  results failed = [] /\ selectedIndex failed = 2.
Proof. cbv zeta. repeat split; reflexivity. Qed.

(** C4 (the code departs from the claim).  Escape and a successful
    activation close the overlay and leave the query, the results and the
    selection as they were; only the toggle clears them. *)
Theorem closing_keeps_search_context :
  let opened := run (three_results ++ [press "ArrowDown"]) initial in
  let escaped := step opened (press "Escape") in
  let activated := run [press "Enter"; Settle 0 (Resolved [])] opened in
  isVisible escaped = false /\ searchQuery escaped = "report" /\
  results escaped = [notes_txt; reports_dir; reporter_exe] /\
  selectedIndex escaped = 0 /\
  isVisible activated = false /\ searchQuery activated = "report" /\
  results activated = [notes_txt; reports_dir; reporter_exe] /\
  selectedIndex activated = 0.
Proof. cbv zeta. repeat split; reflexivity. Qed.

(* C5, the debounce, is proved at the end of the file, on the browser's
   timers. *)

(** C6.  A query shorter than two characters sends nothing to the engine:
    [performSearch] returns the empty list without calling [invoke].
    Typed into an overlay in its empty state, it leaves [results] empty and
    the overlay in its empty state, both while the debounce timer is pending
    and after any lapse of time: the page shows the text field alone. *)
Theorem short_query_never_searches
    (s : State) (q : string) (ms : nat) :
  reachable s -> overlayState s = OpenEmpty ->
  (String.length q < 2)%nat ->
  let typed := step s (InputChange q) in
  let waited := step typed (Elapse ms) in
  performSearch q = ReturnNow [] /\
  invocations typed = invocations s /\ results typed = [] /\
  overlayState typed = OpenEmpty /\
  invocations waited = invocations s /\ results waited = [] /\
  overlayState waited = OpenEmpty /\
  render waited = mkView false None [] None.
Proof.
  intros Hr O L. cbv zeta.
  destruct (OpenEmpty_inv s O) as (V & B & R).
  destruct (input_change_short s q V B R) as [O1 I1].
  assert (M : timer_matches_query (step s (InputChange q))).
  { apply step_timer_matches, reachable_timer_matches, Hr. }
  destruct (elapse_short _ q ms L M O1) as [O2 I2].
  split.
  { unfold performSearch.
    destruct (Nat.ltb_spec (String.length q) 2); [reflexivity | lia]. }
  split; [exact I1 |].
  split; [exact (proj1 (proj2 (proj2 O1))) |].
  split; [exact (quiet_overlay_is_OpenEmpty q _ L O1) |].
  split; [congruence |].
  split; [exact (proj1 (proj2 (proj2 O2))) |].
  split; [exact (quiet_overlay_is_OpenEmpty q _ L O2) |].
  exact (quiet_overlay_renders_nothing q _ L O2).
Qed.

Lemma short_query_never_searches_witness :
  reachable (run [ctrlSpace] initial) /\
  overlayState (run [ctrlSpace] initial) = OpenEmpty /\
  (String.length "a" < 2)%nat /\
  let typed := step (run [ctrlSpace] initial) (InputChange "a") in
  let waited := step typed (Elapse 350) in
  performSearch "a" = ReturnNow [] /\
  invocations typed = invocations (run [ctrlSpace] initial) /\
  results typed = [] /\ overlayState typed = OpenEmpty /\
  invocations waited = invocations (run [ctrlSpace] initial) /\
  results waited = [] /\ overlayState waited = OpenEmpty /\
  render waited = mkView false None [] None.
Proof.
  assert (H1 : reachable (run [ctrlSpace] initial)) by (exists [ctrlSpace]; reflexivity).
  assert (H2 : overlayState (run [ctrlSpace] initial) = OpenEmpty) by reflexivity.
  assert (H3 : (String.length "a" < 2)%nat) by (cbn; lia).
  exact (conj H1 (conj H2 (conj H3
    (short_query_never_searches (run [ctrlSpace] initial) "a" 350 H1 H2 H3)))).
Defined.

(** C7.  Activating a result makes exactly one call: [launch_app] with the
    result's path when the result is an application, [open_path] with the
    result's path when it is a file or a folder.  Nothing else is invoked,
    and nothing else of the state changes. *)
Theorem dispatcher_routes_by_kind (result : SearchResult) (s : State) :
  let operation :=
    match type result with
    | app => launch_app
    | file => open_path
    | folder => open_path
    end in
  handleResultClick result s = invoke operation (path result) s /\
  invocations (handleResultClick result s) =
    (invocations s ++ [mkInvocation operation (path result)])%list /\
  alerts (handleResultClick result s) = alerts s.
Proof.
  unfold handleResultClick. destruct (type result); cbn; auto.
Qed.

(** C8.  When the promise of an activation is rejected, one failure message
    is shown and the overlay is as it was: still visible if it was visible,
    with the same query, results, selection and timer. *)
Theorem activation_failure_is_atomic
    (s : State) (n : nat) (i : Invocation) (e : string) :
  nth_error (pending s) n = Some i ->
  command i = launch_app \/ command i = open_path ->
  let s' := step s (Settle n (Rejected e)) in
  alerts s' = (alerts s ++ [("Failed to open: " ++ e)%string])%list /\
  isVisible s' = isVisible s /\
  searchQuery s' = searchQuery s /\
  results s' = results s /\
  selectedIndex s' = selectedIndex s /\
  isSearching s' = isSearching s /\
  debounceTimer s' = debounceTimer s /\
  invocations s' = invocations s.
Proof.
  intros P C. cbv zeta.
  assert (E : handle (Settle n (Rejected e)) s =
              activationSettled (Rejected e)
                (setPending (remove_nth n (pending s)) s)).
  { cbn. unfold settle. rewrite P.
    destruct C as [C | C]; rewrite C; reflexivity. }
  unfold step. rewrite E, commit_same_query by reflexivity.
  cbn. repeat split; reflexivity.
Qed.

Lemma activation_failure_is_atomic_witness :
  nth_error (pending folder_chosen) 0 =
    Some (mkInvocation open_path "C:/docs/reports") /\
  (command (mkInvocation open_path "C:/docs/reports") = launch_app \/
   command (mkInvocation open_path "C:/docs/reports") = open_path) /\
  let s' := step folder_chosen (Settle 0 (Rejected "Access is denied.")) in
  alerts s' = (alerts folder_chosen ++ ["Failed to open: Access is denied."])%list /\
  isVisible s' = isVisible folder_chosen /\
  searchQuery s' = searchQuery folder_chosen /\
  results s' = results folder_chosen /\
  selectedIndex s' = selectedIndex folder_chosen /\
  isSearching s' = isSearching folder_chosen /\
  debounceTimer s' = debounceTimer folder_chosen /\
  invocations s' = invocations folder_chosen.
Proof.
  assert (H1 : nth_error (pending folder_chosen) 0 =
               Some (mkInvocation open_path "C:/docs/reports")) by reflexivity.
  assert (H2 : command (mkInvocation open_path "C:/docs/reports") = launch_app \/
               command (mkInvocation open_path "C:/docs/reports") = open_path)
    by (right; reflexivity).
  exact (conj H1 (conj H2
    (activation_failure_is_atomic folder_chosen 0
       (mkInvocation open_path "C:/docs/reports") "Access is denied." H1 H2))).
Defined.

(** C9 (the code departs from the claim).  A score that is present and
    equal to 0 gets no percentage label: the guard [result.score && ...]
    yields the number itself, and the page shows the bare text "0" where
    the label "0%" is expected. *)
Theorem zero_score_has_no_label (p n : string) (t : ResultType) :
  renderScore (mkResult p n t (Some (0 # 1))) = Text "0" /\
  renderScore (mkResult p n t (Some (0 # 1))) <> ScoreSpan "0%" /\
  number_to_string (Math_round ((0 # 1) * 100)) ++ "%" = "0%".
Proof. repeat split. discriminate. Qed.

(** C10.  In every state, Enter either activates the result under a
    selection that lies inside [results], or changes nothing at all: with
    the overlay hidden, no selection, or a selection at or beyond the end of
    [results], no operation is invoked. *)
Theorem enter_needs_valid_selection (s : State) (c sh a : bool) :
  let s' := step s (KeyDown (mkKey "Enter" c sh a)) in
  (exists result : SearchResult,
      isVisible s = true /\
      0 <= selectedIndex s < len (results s) /\
      nth_error (results s) (Z.to_nat (selectedIndex s)) = Some result /\
      s' = handleResultClick result s)
  \/
  ((isVisible s = false \/ selectedIndex s < 0 \/
    len (results s) <= selectedIndex s) /\
   s' = s).
Proof.
  cbv zeta. unfold step, handle.
  rewrite shortcut_other_key by (cbn; discriminate).
  unfold handleKeyDown. destruct (isVisible s) eqn:V; cbn.
  - rewrite Z.geb_leb. destruct (Z.leb_spec 0 (selectedIndex s)) as [G | G].
    + destruct (index (results s) (selectedIndex s)) as [r |] eqn:X.
      * left. exists r. pose proof (index_Some _ _ _ _ X) as B.
        unfold index in X. destruct (Z.ltb_spec (selectedIndex s) 0); [lia |].
        repeat split; try lia; try assumption.
        apply commit_same_query, handleResultClick_query.
      * right. destruct (index_None _ _ _ X) as [B | B].
        -- lia.
        -- split; [auto |]. apply commit_same_query. reflexivity.
    + right. split; [auto |]. apply commit_same_query. reflexivity.
  - right. split; [auto |]. apply commit_same_query. reflexivity.
Qed.

(** * Further properties of the component *)

(** ** Induction over the states the component reaches *)

Lemma reachable_initial : reachable initial.
Proof. exists []. reflexivity. Qed.

Lemma reachable_step (s : State) (ev : Event) :
  reachable s -> reachable (step s ev).
Proof.
  intros [evs ->]. exists (evs ++ [ev])%list. rewrite run_snoc. reflexivity.
Qed.

Lemma reachable_invariant (P : State -> Prop) :
  P initial ->
  (forall s ev, reachable s -> P s -> P (step s ev)) ->
  forall s, reachable s -> P s.
Proof.
  intros P0 Pstep s [evs ->].
  induction evs as [| ev evs IH] using rev_ind.
  - exact P0.
  - rewrite run_snoc. apply Pstep; [exists evs; reflexivity | exact IH].
Qed.

(** ** What the handlers leave alone *)

Lemma commit_invocations (before after : State) :
  invocations (commit before after) = invocations after.
Proof.
  unfold commit. destruct (String.eqb (searchQuery before) (searchQuery after));
    [reflexivity | apply searchEffect_invocations].
Qed.

Lemma commit_frame (before after : State) :
  isVisible (commit before after) = isVisible after /\
  alerts (commit before after) = alerts after /\
  console (commit before after) = console after /\
  pending (commit before after) = pending after /\
  isSearching (commit before after) = isSearching after /\
  clock (commit before after) = clock after /\
  searchQuery (commit before after) = searchQuery after.
Proof.
  unfold commit, searchEffect.
  destruct (String.eqb (searchQuery before) (searchQuery after)); [auto 10 |].
  cbn. destruct (String.eqb (trim (searchQuery after)) ""); cbn; auto 10.
Qed.

Lemma shortcut_hotkey (e : KeyboardEvent) (s : State) :
  shortcut e s = if is_hotkey e then toggleVisibility s else s.
Proof. reflexivity. Qed.

Lemma is_hotkey_eq (e : KeyboardEvent) :
  is_hotkey e = true -> e = mkKey " " true false false.
Proof.
  destruct e as [k c sh a]. unfold is_hotkey. cbn.
  destruct (String.eqb_spec k " ") as [-> |]; [| discriminate].
  destruct c, sh, a; cbn; try discriminate. reflexivity.
Qed.

Lemma index_In (A : Type) (l : list A) (i : Z) (x : A) :
  index l i = Some x -> In x l.
Proof.
  unfold index. destruct (i <? 0); [discriminate |]. apply nth_error_In.
Qed.

Lemma handleResultClick_invoke (r : SearchResult) (s : State) :
  handleResultClick r s = invoke (command (activation r)) (argument (activation r)) s.
Proof. unfold handleResultClick, activation. destruct (type r); reflexivity. Qed.

Lemma handleKeyDown_invocations (e : KeyboardEvent) (s : State) :
  exists new, invocations (handleKeyDown e s) = (invocations s ++ new)%list /\
              (new = [] \/ exists r, In r (results s) /\ isVisible s = true /\
                                     new = [activation r]).
Proof.
  unfold handleKeyDown.
  destruct (isVisible s) eqn:V; cbn [negb];
    [| exists []; rewrite app_nil_r; auto].
  destruct (String.eqb (key e) "Escape"); [exists []; rewrite app_nil_r; auto |].
  destruct (String.eqb (key e) "ArrowDown"); [exists []; cbn; rewrite app_nil_r; auto |].
  destruct (String.eqb (key e) "ArrowUp"); [exists []; cbn; rewrite app_nil_r; auto |].
  destruct (String.eqb (key e) "Enter" && (selectedIndex s >=? 0));
    [| exists []; rewrite app_nil_r; auto].
  destruct (index (results s) (selectedIndex s)) as [r |] eqn:X;
    [| exists []; rewrite app_nil_r; auto].
  exists [activation r]. rewrite handleResultClick_invoke. split; [reflexivity |].
  right. exists r. split; [exact (index_In _ _ _ _ X) | auto].
Qed.

Lemma shortcut_invocations (e : KeyboardEvent) (s : State) :
  invocations (shortcut e s) = invocations s.
Proof. rewrite shortcut_hotkey. destruct (is_hotkey e); reflexivity. Qed.

Lemma settle_invocations (n : nat) (o : Outcome) (s : State) :
  invocations (settle n o s) = invocations s.
Proof.
  unfold settle. destruct (nth_error (pending s) n) as [i |]; [| reflexivity].
  destruct (command i), o; reflexivity.
Qed.

Lemma performSearch_gate (q : string) :
  (String.length q < 2)%nat /\ performSearch q = ReturnNow [] \/
  (2 <= String.length q)%nat /\ performSearch q = AwaitInvoke search q.
Proof.
  unfold performSearch. destruct (Nat.ltb_spec (String.length q) 2); auto.
Qed.


(** ** What reaches the backend *)

Lemma step_issues (s : State) (ev : Event) :
  exists new : list Invocation,
    invocations (step s ev) = (invocations s ++ new)%list /\ Issued s new.
Proof.
  unfold step. rewrite commit_invocations.
  destruct ev as [e | v | row | n o | ms]; cbn [handle].
  - rewrite shortcut_invocations.
    destruct (handleKeyDown_invocations e s) as (new & E & [-> | (r & I & _ & ->)]).
    + exists []. split; [exact E | constructor].
    + exists [activation r]. split; [exact E | now constructor].
  - exists []. split; [cbn; now rewrite app_nil_r | constructor].
  - destruct (nth_error (results s) row) as [r |] eqn:X.
    + exists [activation r]. rewrite handleResultClick_invoke.
      split; [reflexivity |]. constructor. exact (nth_error_In _ _ X).
    + exists []. split; [now rewrite app_nil_r | constructor].
  - exists []. rewrite settle_invocations. split; [now rewrite app_nil_r | constructor].
  - unfold elapse. cbn.
    destruct (debounceTimer s) as [t |] eqn:T;
      [| exists []; split; [cbn; now rewrite app_nil_r | constructor]].
    destruct (due t <=? clock s + ms)%nat;
      [| exists []; split; [cbn; now rewrite app_nil_r | constructor]].
    unfold timerCallback.
    destruct (performSearch_gate (captured t)) as [[L ->] | [L ->]].
    + exists []. split; [cbn; now rewrite app_nil_r | constructor].
    + exists [mkInvocation search (captured t)].
      split; [reflexivity | now apply issued_search].
Qed.

(** X1.  Whatever the event, the component makes at most one call to the
    backend in reaction to it, and the log of calls only grows.  The call is
    either the activation of a result that is on display or the search for
    the text the armed timer closed over, two characters long at least. *)
Theorem one_call_per_event (s : State) (ev : Event) :
  exists new : list Invocation,
    invocations (step s ev) = (invocations s ++ new)%list /\ Issued s new.
Proof. exact (step_issues s ev). Qed.

Lemma handleKeyDown_alerts (e : KeyboardEvent) (s : State) :
  alerts (handleKeyDown e s) = alerts s.
Proof.
  unfold handleKeyDown, handleResultClick.
  repeat match goal with
         | |- context [if ?b then _ else _] => destruct b
         | |- context [match ?x with _ => _ end] => destruct x
         end; reflexivity.
Qed.

Lemma shortcut_alerts (e : KeyboardEvent) (s : State) :
  alerts (shortcut e s) = alerts s.
Proof. rewrite shortcut_hotkey. destruct (is_hotkey e); reflexivity. Qed.

(** X2.  An alert box is shown for one reason only: the promise of an
    activation was rejected.  A failed search shows none, nor does any key,
    click, edit or lapse of time. *)
Theorem alert_only_for_failed_activation (s : State) (ev : Event) :
  alerts (step s ev) = alerts s \/
  exists (n : nat) (i : Invocation) (e : string),
    ev = Settle n (Rejected e) /\
    nth_error (pending s) n = Some i /\
    command i <> search /\
    alerts (step s ev) = (alerts s ++ [("Failed to open: " ++ e)%string])%list.
Proof.
  unfold step.
  destruct (commit_frame s (handle ev s)) as (_ & -> & _).
  destruct ev as [e | v | row | n o | ms]; cbn [handle].
  - left. rewrite shortcut_alerts. apply handleKeyDown_alerts.
  - left. reflexivity.
  - left. destruct (nth_error (results s) row) as [r |]; [| reflexivity].
    unfold handleResultClick. destruct (type r); reflexivity.
  - unfold settle. destruct (nth_error (pending s) n) as [i |] eqn:X; [| now left].
    destruct (command i) eqn:C.
    + left. destruct o; reflexivity.
    + destruct o as [rs | e]; [now left |]. right. exists n, i, e.
      repeat split; try assumption. congruence.
    + destruct o as [rs | e]; [now left |]. right. exists n, i, e.
      repeat split; try assumption. congruence.
  - left. unfold elapse. cbn. destruct (debounceTimer s) as [t |]; [| reflexivity].
    destruct (due t <=? clock s + ms)%nat; [| reflexivity].
    unfold timerCallback. destruct (performSearch (captured t)); reflexivity.
Qed.

(** ** The armed timer *)

Lemma searchEffect_timer_wf (s : State) : timer_well_formed (searchEffect s).
Proof.
  unfold timer_well_formed, searchEffect, blank. cbn.
  destruct (String.eqb (trim (searchQuery s)) "") eqn:B; cbn; [exact I |].
  repeat split; try assumption; lia.
Qed.

Lemma handle_timer_clock (ev : Event) (s : State) :
  match ev with
  | Elapse _ => True
  | _ => debounceTimer (handle ev s) = debounceTimer s /\
         clock (handle ev s) = clock s
  end.
Proof.
  destruct ev as [e | v | row | n o | ms]; cbn [handle]; [| | | | exact I].
  - rewrite shortcut_hotkey. unfold handleKeyDown, handleResultClick.
    repeat match goal with
           | |- context [if ?b then _ else _] => destruct b
           | |- context [match ?x with _ => _ end] => destruct x
           end; split; reflexivity.
  - split; reflexivity.
  - destruct (nth_error (results s) row) as [r |]; [| split; reflexivity].
    unfold handleResultClick. destruct (type r); split; reflexivity.
  - unfold settle. destruct (nth_error (pending s) n) as [i |]; [| split; reflexivity].
    destruct (command i), o; split; reflexivity.
Qed.

Lemma handle_timer_wf (ev : Event) (s : State) :
  timer_well_formed s ->
  searchQuery (handle ev s) = searchQuery s ->
  timer_well_formed (handle ev s).
Proof.
  intros W Q. pose proof (handle_timer_clock ev s) as F.
  destruct ev as [e | v | row | n o | ms].
  1-4: destruct F as [T C]; unfold timer_well_formed in *;
       rewrite T, C, Q; exact W.
  clear F Q. cbn [handle]. unfold elapse, timer_well_formed in *. cbn.
  destruct (debounceTimer s) as [t |] eqn:T; cbn; [| rewrite T; exact I].
  destruct (Nat.leb_spec (due t) (clock s + ms)) as [D | D].
  - rewrite timerCallback_timer. exact I.
  - cbn. rewrite T. destruct W as (W1 & W2 & W3). repeat split; try assumption; lia.
Qed.

Lemma step_timer_wf (s : State) (ev : Event) :
  timer_well_formed s -> timer_well_formed (step s ev).
Proof.
  intros W. unfold step, commit.
  destruct (String.eqb_spec (searchQuery s) (searchQuery (handle ev s))) as [E | E].
  - apply handle_timer_wf; [exact W | congruence].
  - apply searchEffect_timer_wf.
Qed.

Lemma reachable_timer_wf (s : State) : reachable s -> timer_well_formed s.
Proof.
  apply reachable_invariant; [exact I |].
  intros s' ev _. apply step_timer_wf.
Qed.

(** X3.  In every state the component reaches, an armed debounce timer
    closed over the text now in the field, that text is not blank, and the
    timer is due later than now and within the next 200 ms: it is never
    stale, never overdue and never further away than one window. *)
Theorem armed_timer_is_current (s : State) (t : Timer) :
  reachable s -> debounceTimer s = Some t ->
  captured t = searchQuery s /\ blank (searchQuery s) = false /\
  (clock s < due t <= clock s + 200)%nat.
Proof.
  intros R T. pose proof (reachable_timer_wf s R) as W.
  unfold timer_well_formed in W. rewrite T in W.
  destruct W as (W1 & W2 & W3). rewrite <- W1. auto.
Qed.

Lemma armed_timer_is_current_witness :
  reachable (run [ctrlSpace; InputChange "report"; Elapse 50] initial) /\
  debounceTimer (run [ctrlSpace; InputChange "report"; Elapse 50] initial)
    = Some (mkTimer 200 "report") /\
  captured (mkTimer 200 "report")
    = searchQuery (run [ctrlSpace; InputChange "report"; Elapse 50] initial) /\
  blank (searchQuery (run [ctrlSpace; InputChange "report"; Elapse 50] initial))
    = false /\
  (clock (run [ctrlSpace; InputChange "report"; Elapse 50] initial)
     < due (mkTimer 200 "report")
     <= clock (run [ctrlSpace; InputChange "report"; Elapse 50] initial) + 200)%nat.
Proof.
  assert (H1 : reachable (run [ctrlSpace; InputChange "report"; Elapse 50] initial))
    by (eexists; reflexivity).
  assert (H2 : debounceTimer (run [ctrlSpace; InputChange "report"; Elapse 50] initial)
               = Some (mkTimer 200 "report")) by reflexivity.
  exact (conj H1 (conj H2
    (armed_timer_is_current _ (mkTimer 200 "report") H1 H2))).
Defined.

Lemma step_searches_wf (s : State) (ev : Event) :
  timer_well_formed s -> searches_well_formed s ->
  searches_well_formed (step s ev).
Proof.
  intros W S i In_i C.
  destruct (step_issues s ev) as (new & E & N). rewrite E in In_i.
  apply in_app_or in In_i. destruct In_i as [Old | New]; [exact (S i Old C) |].
  destruct N as [| r Hr | t T L]; cbn in New.
  - contradiction.
  - destruct New as [<- | []]. unfold activation in C. cbn in C.
    destruct (type r); discriminate.
  - destruct New as [<- | []]. cbn. split; [exact L |].
    unfold timer_well_formed in W. rewrite T in W. tauto.
Qed.

Lemma reachable_searches_wf (s : State) :
  reachable s -> timer_well_formed s /\ searches_well_formed s.
Proof.
  revert s.
  apply (reachable_invariant
           (fun s => timer_well_formed s /\ searches_well_formed s)).
  - split; [exact I | intros i []].
  - intros s' ev _ [W S]. split; [apply step_timer_wf, W | apply step_searches_wf; assumption].
Qed.

(** X4.  The engine is never asked for a text shorter than two characters,
    nor for a blank one: every [search] call the component has made, in any
    state it reaches, carries a text of two characters at least that is not
    all white space. *)
Theorem engine_never_gets_short_or_blank_query (s : State) (i : Invocation) :
  reachable s -> In i (invocations s) -> command i = search ->
  (2 <= String.length (argument i))%nat /\ blank (argument i) = false.
Proof.
  intros R. exact (proj2 (reachable_searches_wf s R) i).
Qed.

Lemma engine_never_gets_short_or_blank_query_witness :
  reachable (run abcd_answered initial) /\
  In (mkInvocation search "abc") (invocations (run abcd_answered initial)) /\
  command (mkInvocation search "abc") = search /\
  (2 <= String.length (argument (mkInvocation search "abc")))%nat /\
  blank (argument (mkInvocation search "abc")) = false.
Proof.
  assert (H1 : reachable (run abcd_answered initial)) by (eexists; reflexivity).
  assert (H2 : In (mkInvocation search "abc")
                  (invocations (run abcd_answered initial)))
    by (left; reflexivity).
  assert (H3 : command (mkInvocation search "abc") = search) by reflexivity.
  exact (conj H1 (conj H2 (conj H3
    (engine_never_gets_short_or_blank_query _ _ H1 H2 H3)))).
Defined.

(** ** Blank text, the toggle and the timer *)

Lemma blank_empty : blank "" = true.
Proof. reflexivity. Qed.

Lemma elapse_without_timer (s : State) (ms : nat) :
  debounceTimer s = None ->
  step s (Elapse ms) = setClock (clock s + ms)%nat s.
Proof.
  intros T. unfold step. cbn [handle]. unfold elapse. cbn. rewrite T.
  apply commit_same_query. reflexivity.
Qed.

(** X5.  Replacing the text of the field by a blank one (empty, or white
    space only, of any length) clears the results and the selection at once
    and leaves no timer armed, so that no search follows however long the
    user waits. *)
Theorem blank_query_clears (s : State) (q : string) (ms : nat) :
  q <> searchQuery s -> blank q = true ->
  let typed := step s (InputChange q) in
  results typed = [] /\ selectedIndex typed = -1 /\
  debounceTimer typed = None /\
  invocations (step typed (Elapse ms)) = invocations s.
Proof.
  intros N B. cbv zeta.
  assert (E : step s (InputChange q)
              = setSelectedIndex (-1) (setResults [] (clearTimeout (setSearchQuery q s)))).
  { unfold step. cbn [handle]. rewrite commit_new_query by (cbn; exact N).
    unfold searchEffect. unfold blank in B. cbn. rewrite B. reflexivity. }
  rewrite E. repeat split.
  rewrite elapse_without_timer by reflexivity. reflexivity.
Qed.

Lemma blank_query_clears_witness :
  "   " <> searchQuery (run three_results initial) /\
  blank "   " = true /\
  let typed := step (run three_results initial) (InputChange "   ") in
  results typed = [] /\ selectedIndex typed = -1 /\
  debounceTimer typed = None /\
  invocations (step typed (Elapse 1000)) = invocations (run three_results initial).
Proof.
  assert (H1 : "   " <> searchQuery (run three_results initial)) by discriminate.
  assert (H2 : blank "   " = true) by reflexivity.
  exact (conj H1 (conj H2
    (blank_query_clears (run three_results initial) "   " 1000 H1 H2))).
Defined.

Lemma toggle_step (s : State) :
  step s ctrlSpace = commit s (toggleVisibility s).
Proof.
  unfold step, ctrlSpace. cbn [handle]. rewrite shortcut_hotkey. cbn [is_hotkey].
  assert (H : handleKeyDown (mkKey " " true false false) s = s).
  { unfold handleKeyDown. destruct (isVisible s); reflexivity. }
  rewrite H. reflexivity.
Qed.

Lemma toggle_timer_none (s : State) :
  reachable s -> debounceTimer (step s ctrlSpace) = None.
Proof.
  intros R.
  pose proof (reachable_timer_wf _ (reachable_step s ctrlSpace R)) as W.
  unfold timer_well_formed in W.
  destruct (debounceTimer (step s ctrlSpace)) as [t |]; [| reflexivity].
  destruct W as (W1 & W2 & _). rewrite W1 in W2.
  destruct (toggle_resets s) as (_ & Q & _). cbv zeta in Q.
  rewrite Q, blank_empty in W2. discriminate.
Qed.

(** X6.  In every state the component reaches, the toggle hotkey cancels
    the armed debounce timer along with clearing the text: no search is sent
    afterwards however long the user waits, and a second press of the
    hotkey brings the visibility back to what it was. *)
Theorem toggle_cancels_pending_search (s : State) (ms : nat) :
  reachable s ->
  let toggled := step s ctrlSpace in
  debounceTimer toggled = None /\
  searchQuery toggled = "" /\
  invocations (step toggled (Elapse ms)) = invocations s /\
  isVisible (step toggled ctrlSpace) = isVisible s.
Proof.
  intros R. cbv zeta.
  pose proof (toggle_timer_none s R) as T.
  destruct (toggle_resets s) as (V & Q & _). cbv zeta in V, Q.
  split; [exact T |]. split; [exact Q |]. split.
  - rewrite elapse_without_timer by exact T. cbn.
    rewrite toggle_step, commit_invocations. reflexivity.
  - destruct (toggle_resets (step s ctrlSpace)) as (V2 & _). cbv zeta in V2.
    rewrite V2, V. apply negb_involutive.
Qed.

Lemma toggle_cancels_pending_search_witness :
  reachable (run [ctrlSpace; InputChange "report"; Elapse 120] initial) /\
  let toggled := step (run [ctrlSpace; InputChange "report"; Elapse 120] initial) ctrlSpace in
  debounceTimer toggled = None /\
  searchQuery toggled = "" /\
  invocations (step toggled (Elapse 500))
    = invocations (run [ctrlSpace; InputChange "report"; Elapse 120] initial) /\
  isVisible (step toggled ctrlSpace)
    = isVisible (run [ctrlSpace; InputChange "report"; Elapse 120] initial).
Proof.
  assert (H1 : reachable (run [ctrlSpace; InputChange "report"; Elapse 120] initial))
    by (eexists; reflexivity).
  exact (conj H1 (toggle_cancels_pending_search _ 500 H1)).
Defined.

(** ** A search from dispatch to settlement *)

Lemma nth_error_last (A : Type) (l : list A) (x : A) :
  nth_error (l ++ [x]) (List.length l) = Some x.
Proof.
  rewrite nth_error_app2 by lia. rewrite Nat.sub_diag. reflexivity.
Qed.

Lemma remove_nth_last (A : Type) (l : list A) (x : A) :
  remove_nth (List.length l) (l ++ [x]) = l.
Proof.
  induction l as [| y l IH]; [reflexivity |]. cbn. rewrite IH. reflexivity.
Qed.

(** X7.  A search that fails is recovered on the spot: when its promise is
    rejected the results become empty, the spinner stops, one line goes to
    the console and no alert is shown; the overlay stays as visible as it
    was and the text of the field is untouched. *)
Theorem search_failure_is_recovered
    (s : State) (n : nat) (i : Invocation) (e : string) :
  nth_error (pending s) n = Some i -> command i = search ->
  let s' := step s (Settle n (Rejected e)) in
  results s' = [] /\ isSearching s' = false /\
  console s' = (console s ++ [("Search error: " ++ e)%string])%list /\
  alerts s' = alerts s /\
  isVisible s' = isVisible s /\ searchQuery s' = searchQuery s /\
  invocations s' = invocations s.
Proof.
  intros P C. cbv zeta.
  assert (E : handle (Settle n (Rejected e)) s =
              searchSettled (Rejected e) (setPending (remove_nth n (pending s)) s)).
  { cbn [handle]. unfold settle. rewrite P, C. reflexivity. }
  unfold step. rewrite E, commit_same_query by reflexivity.
  cbn. repeat split; reflexivity.
Qed.

Lemma search_failure_is_recovered_witness :
  nth_error (pending (run cursor_on_last_row initial)) 0
    = Some (mkInvocation search "reports") /\
  command (mkInvocation search "reports") = search /\
  let s' := step (run cursor_on_last_row initial) (Settle 0 (Rejected "index locked")) in
  results s' = [] /\ isSearching s' = false /\
  console s' = (console (run cursor_on_last_row initial)
                ++ ["Search error: index locked"])%list /\
  alerts s' = alerts (run cursor_on_last_row initial) /\
  isVisible s' = isVisible (run cursor_on_last_row initial) /\
  searchQuery s' = searchQuery (run cursor_on_last_row initial) /\
  invocations s' = invocations (run cursor_on_last_row initial).
Proof.
  assert (H1 : nth_error (pending (run cursor_on_last_row initial)) 0
               = Some (mkInvocation search "reports")) by reflexivity.
  assert (H2 : command (mkInvocation search "reports") = search) by reflexivity.
  exact (conj H1 (conj H2
    (search_failure_is_recovered (run cursor_on_last_row initial) 0
       (mkInvocation search "reports") "index locked" H1 H2))).
Defined.

(** X8.  The life of one search.  When the armed timer comes due and the
    text it closed over has two characters at least, exactly that text is
    sent to the engine, the spinner starts and the results already on the
    page stay there; when the answer comes back it becomes the results, the
    spinner stops and nothing is left pending. *)
Theorem search_round_trip
    (s : State) (t : Timer) (ms : nat) (answer : list SearchResult) :
  debounceTimer s = Some t ->
  (due t <= clock s + ms)%nat ->
  (2 <= String.length (captured t))%nat ->
  let sent := step s (Elapse ms) in
  let back := step sent (Settle (List.length (pending s)) (Resolved answer)) in
  invocations sent = (invocations s ++ [mkInvocation search (captured t)])%list /\
  isSearching sent = true /\ results sent = results s /\
  debounceTimer sent = None /\
  results back = answer /\ isSearching back = false /\
  pending back = pending s /\ invocations back = invocations sent.
Proof.
  intros T D L. cbv zeta.
  assert (E : step s (Elapse ms) =
              invoke search (captured t)
                (setIsSearching true (setDebounceTimer None (setClock (clock s + ms)%nat s)))).
  { unfold step. cbn [handle]. unfold elapse. cbn. rewrite T.
    destruct (Nat.leb_spec (due t) (clock s + ms)) as [_ | H]; [| lia].
    unfold timerCallback.
    destruct (performSearch_gate (captured t)) as [[H _] | [_ ->]]; [lia |].
    apply commit_same_query. reflexivity. }
  rewrite E. repeat split.
  all: unfold step; cbn [handle]; unfold settle; cbn [pending invoke setIsSearching];
    rewrite nth_error_last; cbn [command];
    rewrite commit_same_query by reflexivity; cbn; try reflexivity.
  apply remove_nth_last.
Qed.

Lemma search_round_trip_witness :
  debounceTimer (run [ctrlSpace; InputChange "report"] initial)
    = Some (mkTimer 200 "report") /\
  (due (mkTimer 200 "report")
     <= clock (run [ctrlSpace; InputChange "report"] initial) + 230)%nat /\
  (2 <= String.length (captured (mkTimer 200 "report")))%nat /\
  let sent := step (run [ctrlSpace; InputChange "report"] initial) (Elapse 230) in
  let back :=
    step sent
      (Settle (List.length (pending (run [ctrlSpace; InputChange "report"] initial)))
              (Resolved [notes_txt])) in
  invocations sent
    = (invocations (run [ctrlSpace; InputChange "report"] initial)
       ++ [mkInvocation search (captured (mkTimer 200 "report"))])%list /\
  isSearching sent = true /\
  results sent = results (run [ctrlSpace; InputChange "report"] initial) /\
  debounceTimer sent = None /\
  results back = [notes_txt] /\ isSearching back = false /\
  pending back = pending (run [ctrlSpace; InputChange "report"] initial) /\
  invocations back = invocations sent.
Proof.
  assert (H1 : debounceTimer (run [ctrlSpace; InputChange "report"] initial)
               = Some (mkTimer 200 "report")) by reflexivity.
  assert (H2 : (due (mkTimer 200 "report")
                <= clock (run [ctrlSpace; InputChange "report"] initial) + 230)%nat)
    by (cbn; lia).
  assert (H3 : (2 <= String.length (captured (mkTimer 200 "report")))%nat)
    by (cbn; lia).
  exact (conj H1 (conj H2 (conj H3
    (search_round_trip (run [ctrlSpace; InputChange "report"] initial)
       (mkTimer 200 "report") 230 [notes_txt] H1 H2 H3)))).
Defined.

(** ** The keyboard *)

Lemma shortcut_not_hotkey (e : KeyboardEvent) (s : State) :
  is_hotkey e = false -> shortcut e s = s.
Proof. intros H. rewrite shortcut_hotkey, H. reflexivity. Qed.

Lemma handleKeyDown_visible (e : KeyboardEvent) (s : State) :
  isVisible (handleKeyDown e s) = true -> isVisible s = true.
Proof.
  unfold handleKeyDown. destruct (isVisible s) eqn:V; [reflexivity |].
  cbn. rewrite V. auto.
Qed.

Lemma opening_event (s : State) (ev : Event) :
  isVisible s = false -> isVisible (step s ev) = true -> ev = ctrlSpace.
Proof.
  intros H V. unfold ctrlSpace. unfold step in V.
  destruct (commit_frame s (handle ev s)) as (F & _). rewrite F in V. clear F.
  destruct ev as [e | v | row | n o | ms]; cbn [handle] in V.
  - destruct (is_hotkey e) eqn:K.
    + rewrite (is_hotkey_eq e K). reflexivity.
    + rewrite shortcut_not_hotkey in V by exact K.
      apply handleKeyDown_visible in V. congruence.
  - cbn in V. congruence.
  - destruct (nth_error (results s) row) as [r |]; [| congruence].
    unfold handleResultClick in V. destruct (type r); cbn in V; congruence.
  - unfold settle in V. destruct (nth_error (pending s) n) as [i |]; [| congruence].
    destruct (command i), o; cbn in V; congruence.
  - unfold elapse in V. cbn in V. destruct (debounceTimer s) as [t |]; [| cbn in V; congruence].
    destruct (due t <=? clock s + ms)%nat; [| cbn in V; congruence].
    unfold timerCallback in V. destruct (performSearch (captured t)); cbn in V; congruence.
Qed.

(** X9.  Nothing but the hotkey opens the overlay: if the overlay is hidden
    before an event and visible after it, the event is Ctrl+Space with
    neither Shift nor Alt.  No other key, no edit, no click, no timer and
    no answer from the backend makes the overlay appear. *)
Theorem only_hotkey_opens (s : State) (ev : Event) :
  isVisible s = false -> isVisible (step s ev) = true ->
  ev = KeyDown (mkKey " " true false false).
Proof. exact (opening_event s ev). Qed.

Lemma only_hotkey_opens_witness :
  isVisible initial = false /\
  isVisible (step initial ctrlSpace) = true /\
  ctrlSpace = KeyDown (mkKey " " true false false).
Proof.
  assert (H1 : isVisible initial = false) by reflexivity.
  assert (H2 : isVisible (step initial ctrlSpace) = true) by reflexivity.
  exact (conj H1 (conj H2 (only_hotkey_opens initial ctrlSpace H1 H2))).
Defined.

(** X10.  A key that is not the hotkey changes nothing at all while the
    overlay is hidden, and nothing either while it is visible unless it is
    Escape, ArrowDown, ArrowUp or Enter. *)
Theorem other_keys_are_inert (s : State) (e : KeyboardEvent) :
  is_hotkey e = false ->
  isVisible s = false \/ is_navigation_key (key e) = false ->
  step s (KeyDown e) = s.
Proof.
  intros K H. unfold step. cbn [handle].
  rewrite shortcut_not_hotkey by exact K.
  assert (E : handleKeyDown e s = s).
  { unfold handleKeyDown. destruct H as [V | N].
    - rewrite V. reflexivity.
    - unfold is_navigation_key in N.
      destruct (String.eqb (key e) "Escape"); [discriminate |].
      destruct (String.eqb (key e) "ArrowDown"); [discriminate |].
      destruct (String.eqb (key e) "ArrowUp"); [discriminate |].
      destruct (String.eqb (key e) "Enter"); [discriminate |].
      destruct (negb (isVisible s)); reflexivity. }
  rewrite E. apply commit_same_query. reflexivity.
Qed.

Lemma other_keys_are_inert_witness :
  is_hotkey (mkKey " " false false false) = false /\
  (isVisible (run three_results initial) = false \/
   is_navigation_key (key (mkKey " " false false false)) = false) /\
  step (run three_results initial) (KeyDown (mkKey " " false false false))
    = run three_results initial.
Proof.
  assert (H1 : is_hotkey (mkKey " " false false false) = false) by reflexivity.
  assert (H2 : isVisible (run three_results initial) = false \/
               is_navigation_key (key (mkKey " " false false false)) = false)
    by (right; reflexivity).
  exact (conj H1 (conj H2
    (other_keys_are_inert (run three_results initial)
       (mkKey " " false false false) H1 H2))).
Defined.

Lemma handleKeyDown_lower_bound (e : KeyboardEvent) (s : State) :
  -1 <= selectedIndex s -> -1 <= selectedIndex (handleKeyDown e s).
Proof.
  intros B. unfold handleKeyDown, handleResultClick.
  pose proof (len_nonneg _ (results s)).
  repeat match goal with
         | |- context [if ?b then _ else _] => destruct b
         | |- context [match ?x with _ => _ end] => destruct x
         end; cbn; lia.
Qed.

Lemma step_lower_bound (s : State) (ev : Event) :
  -1 <= selectedIndex s -> -1 <= selectedIndex (step s ev).
Proof.
  intros B.
  assert (H : -1 <= selectedIndex (handle ev s)).
  { destruct ev as [e | v | row | n o | ms]; cbn [handle].
    - rewrite shortcut_hotkey. destruct (is_hotkey e); [cbn; lia |].
      apply handleKeyDown_lower_bound, B.
    - exact B.
    - destruct (nth_error (results s) row) as [r |]; [| exact B].
      unfold handleResultClick. destruct (type r); exact B.
    - unfold settle. destruct (nth_error (pending s) n) as [i |]; [| exact B].
      destruct (command i), o; exact B.
    - unfold elapse. cbn. destruct (debounceTimer s) as [t |]; [| exact B].
      destruct (due t <=? clock s + ms)%nat; [| exact B].
      unfold timerCallback. destruct (performSearch (captured t)); exact B. }
  unfold step, commit, searchEffect.
  destruct (String.eqb (searchQuery s) (searchQuery (handle ev s))); [exact H |].
  cbn. destruct (String.eqb (trim (searchQuery (handle ev s))) ""); cbn; [lia | exact H].
Qed.

Lemma selection_never_below_none_aux (s : State) :
  reachable s -> -1 <= selectedIndex s.
Proof.
  revert s. apply (reachable_invariant (fun s => -1 <= selectedIndex s)).
  - cbn. lia.
  - intros s ev _. apply step_lower_bound.
Qed.

(** X11.  The selection never goes below -1: in every state the component
    reaches, whatever the keys pressed and whatever the searches answered,
    [selectedIndex] is -1 or more. *)
Theorem selection_never_below_none (s : State) :
  reachable s -> -1 <= selectedIndex s.
Proof. exact (selection_never_below_none_aux s). Qed.

Lemma selection_never_below_none_witness :
  reachable (run (three_results ++ [press "ArrowUp"; press "ArrowUp"]) initial) /\
  -1 <= selectedIndex (run (three_results ++ [press "ArrowUp"; press "ArrowUp"]) initial).
Proof.
  assert (H1 : reachable (run (three_results ++ [press "ArrowUp"; press "ArrowUp"]) initial))
    by (eexists; reflexivity).
  exact (conj H1 (selection_never_below_none _ H1)).
Defined.

(** ** Moving the cursor *)

Lemma setSelectedIndex_same (s : State) :
  setSelectedIndex (selectedIndex s) s = s.
Proof. destruct s. reflexivity. Qed.

Lemma run_repeat_S (ev : Event) (k : nat) (s : State) :
  run (repeat ev (S k)) s = run (repeat ev k) (step s ev).
Proof. reflexivity. Qed.

(** X12.  Pressing ArrowDown [k] times in a row (once at least) on a
    visible overlay moves the cursor [k] rows down and stops on the last
    row: the selection becomes min(selection + k, length - 1), wherever it
    started, and nothing else changes. *)
Theorem arrow_down_repeated (s : State) (k : nat) :
  isVisible s = true -> (1 <= k)%nat ->
  run (repeat (press "ArrowDown") k) s =
  setSelectedIndex
    (Z.min (selectedIndex s + Z.of_nat k) (len (results s) - 1)) s.
Proof.
  intros V K. destruct k as [| k]; [lia |]. clear K.
  revert s V. induction k as [| k IH]; intros s V.
  - cbn [repeat run fold_left]. unfold press. rewrite arrow_down_step by exact V.
    reflexivity.
  - rewrite run_repeat_S. unfold press at 2. rewrite arrow_down_step by exact V.
    rewrite IH by exact V. cbn [selectedIndex results setSelectedIndex].
    unfold setSelectedIndex. cbn. f_equal. lia.
Qed.

Lemma arrow_down_repeated_witness :
  isVisible (run three_results initial) = true /\ (1 <= 5)%nat /\
  run (repeat (press "ArrowDown") 5) (run three_results initial) =
  setSelectedIndex
    (Z.min (selectedIndex (run three_results initial) + Z.of_nat 5)
           (len (results (run three_results initial)) - 1))
    (run three_results initial).
Proof.
  assert (H1 : isVisible (run three_results initial) = true) by reflexivity.
  assert (H2 : (1 <= 5)%nat) by lia.
  exact (conj H1 (conj H2 (arrow_down_repeated (run three_results initial) 5 H1 H2))).
Defined.

(** X13.  Pressing ArrowUp [k] times in a row (once at least) on a visible
    overlay moves the cursor [k] rows up and stops on "none": the selection
    becomes max(selection - k, -1), and nothing else changes. *)
Theorem arrow_up_repeated (s : State) (k : nat) :
  isVisible s = true -> (1 <= k)%nat ->
  run (repeat (press "ArrowUp") k) s =
  setSelectedIndex (Z.max (selectedIndex s - Z.of_nat k) (-1)) s.
Proof.
  intros V K. destruct k as [| k]; [lia |]. clear K.
  revert s V. induction k as [| k IH]; intros s V.
  - cbn [repeat run fold_left]. unfold press. rewrite arrow_up_step by exact V.
    reflexivity.
  - rewrite run_repeat_S. unfold press at 2. rewrite arrow_up_step by exact V.
    rewrite IH by exact V. cbn [selectedIndex results setSelectedIndex].
    unfold setSelectedIndex. cbn. f_equal. lia.
Qed.

Lemma arrow_up_repeated_witness :
  isVisible (run cursor_on_last_row initial) = true /\ (1 <= 2)%nat /\
  run (repeat (press "ArrowUp") 2) (run cursor_on_last_row initial) =
  setSelectedIndex
    (Z.max (selectedIndex (run cursor_on_last_row initial) - Z.of_nat 2) (-1))
    (run cursor_on_last_row initial).
Proof.
  assert (H1 : isVisible (run cursor_on_last_row initial) = true) by reflexivity.
  assert (H2 : (1 <= 2)%nat) by lia.
  exact (conj H1 (conj H2 (arrow_up_repeated (run cursor_on_last_row initial) 2 H1 H2))).
Defined.

(** X14.  ArrowDown then ArrowUp is a round trip: on a visible overlay whose
    selection is "none" or a row other than the last, the two keys bring
    the state back exactly. *)
Theorem arrow_down_then_up (s : State) :
  isVisible s = true ->
  -1 <= selectedIndex s < len (results s) - 1 ->
  step (step s (press "ArrowDown")) (press "ArrowUp") = s.
Proof.
  intros V B. unfold press.
  rewrite arrow_down_step by exact V. rewrite arrow_up_step by exact V.
  transitivity (setSelectedIndex (selectedIndex s) s);
    [| apply setSelectedIndex_same].
  unfold setSelectedIndex. cbn. f_equal. lia.
Qed.

Lemma arrow_down_then_up_witness :
  isVisible (run three_results initial) = true /\
  -1 <= selectedIndex (run three_results initial)
     < len (results (run three_results initial)) - 1 /\
  step (step (run three_results initial) (press "ArrowDown")) (press "ArrowUp")
    = run three_results initial.
Proof.
  assert (H1 : isVisible (run three_results initial) = true) by reflexivity.
  assert (H2 : -1 <= selectedIndex (run three_results initial)
                  < len (results (run three_results initial)) - 1)
    by (split; [apply Z.leb_le | apply Z.ltb_lt]; reflexivity).
  exact (conj H1 (conj H2 (arrow_down_then_up (run three_results initial) H1 H2))).
Defined.

(** X15.  ArrowUp then ArrowDown is a round trip as well: on a visible
    overlay whose selection is a row of the results, the two keys bring the
    state back exactly. *)
Theorem arrow_up_then_down (s : State) :
  isVisible s = true ->
  0 <= selectedIndex s < len (results s) ->
  step (step s (press "ArrowUp")) (press "ArrowDown") = s.
Proof.
  intros V B. unfold press.
  rewrite arrow_up_step by exact V. rewrite arrow_down_step by exact V.
  transitivity (setSelectedIndex (selectedIndex s) s);
    [| apply setSelectedIndex_same].
  unfold setSelectedIndex. cbn. f_equal. lia.
Qed.

Lemma arrow_up_then_down_witness :
  isVisible (run (three_results ++ [press "ArrowDown"]) initial) = true /\
  0 <= selectedIndex (run (three_results ++ [press "ArrowDown"]) initial)
    < len (results (run (three_results ++ [press "ArrowDown"]) initial)) /\
  step (step (run (three_results ++ [press "ArrowDown"]) initial) (press "ArrowUp"))
       (press "ArrowDown")
    = run (three_results ++ [press "ArrowDown"]) initial.
Proof.
  assert (H1 : isVisible (run (three_results ++ [press "ArrowDown"]) initial) = true)
    by reflexivity.
  assert (H2 : 0 <= selectedIndex (run (three_results ++ [press "ArrowDown"]) initial)
                 < len (results (run (three_results ++ [press "ArrowDown"]) initial)))
    by (split; [apply Z.leb_le | apply Z.ltb_lt]; reflexivity).
  exact (conj H1 (conj H2
    (arrow_up_then_down (run (three_results ++ [press "ArrowDown"]) initial) H1 H2))).
Defined.

(** X16.  ArrowDown repairs a selection that has run past the results: in
    every state the component reaches with the overlay visible, one
    ArrowDown leaves the selection between -1 and the last row, whatever it
    was before. *)
Theorem arrow_down_restores_range (s : State) :
  reachable s -> isVisible s = true ->
  selection_in_range (step s (press "ArrowDown")).
Proof.
  intros R V. pose proof (selection_never_below_none_aux s R) as B.
  unfold press. rewrite arrow_down_step by exact V.
  pose proof (len_nonneg _ (results s)).
  unfold selection_in_range. cbn. lia.
Qed.

Lemma arrow_down_restores_range_witness :
  reachable (run (cursor_on_last_row ++ [Settle 0 (Resolved [reports_dir])]) initial) /\
  isVisible (run (cursor_on_last_row ++ [Settle 0 (Resolved [reports_dir])]) initial)
    = true /\
  selection_in_range
    (step (run (cursor_on_last_row ++ [Settle 0 (Resolved [reports_dir])]) initial)
          (press "ArrowDown")).
Proof.
  assert (H1 : reachable
                 (run (cursor_on_last_row ++ [Settle 0 (Resolved [reports_dir])]) initial))
    by (eexists; reflexivity).
  assert (H2 : isVisible
                 (run (cursor_on_last_row ++ [Settle 0 (Resolved [reports_dir])]) initial)
               = true) by reflexivity.
  exact (conj H1 (conj H2 (arrow_down_restores_range _ H1 H2))).
Defined.

(** ** Activating a result *)

Lemma enter_step (s : State) (c sh a : bool) :
  isVisible s = true -> 0 <= selectedIndex s ->
  step s (KeyDown (mkKey "Enter" c sh a)) =
  match nth_error (results s) (Z.to_nat (selectedIndex s)) with
  | Some r => handleResultClick r s
  | None => s
  end.
Proof.
  intros V B. unfold step. cbn [handle].
  rewrite shortcut_other_key by (cbn; discriminate).
  unfold handleKeyDown, index. rewrite V. cbn.
  destruct (Z.geb_spec (selectedIndex s) 0) as [_ | H]; [| lia].
  destruct (Z.ltb_spec (selectedIndex s) 0) as [H | _]; [lia |].
  destruct (nth_error (results s) (Z.to_nat (selectedIndex s))) as [r |].
  - apply commit_same_query, handleResultClick_query.
  - apply commit_same_query. reflexivity.
Qed.

Lemma click_step (s : State) (row : nat) :
  step s (Click row) =
  match nth_error (results s) row with
  | Some r => handleResultClick r s
  | None => s
  end.
Proof.
  unfold step. cbn [handle]. destruct (nth_error (results s) row) as [r |].
  - apply commit_same_query, handleResultClick_query.
  - apply commit_same_query. reflexivity.
Qed.

(** X17.  Keyboard and mouse agree: on a visible overlay with a selection,
    pressing Enter does exactly what a click on the selected row does (and
    nothing if there is no such row). *)
Theorem enter_is_click_on_selected_row (s : State) (c sh a : bool) :
  isVisible s = true -> 0 <= selectedIndex s ->
  step s (KeyDown (mkKey "Enter" c sh a)) =
  step s (Click (Z.to_nat (selectedIndex s))).
Proof.
  intros V B. rewrite enter_step by assumption. rewrite click_step. reflexivity.
Qed.

Lemma enter_is_click_on_selected_row_witness :
  isVisible (run (three_results ++ [press "ArrowDown"; press "ArrowDown"]) initial)
    = true /\
  0 <= selectedIndex (run (three_results ++ [press "ArrowDown"; press "ArrowDown"]) initial) /\
  step (run (three_results ++ [press "ArrowDown"; press "ArrowDown"]) initial)
       (KeyDown (mkKey "Enter" false false false)) =
  step (run (three_results ++ [press "ArrowDown"; press "ArrowDown"]) initial)
       (Click (Z.to_nat
                 (selectedIndex
                    (run (three_results ++ [press "ArrowDown"; press "ArrowDown"]) initial)))).
Proof.
  assert (H1 : isVisible
                 (run (three_results ++ [press "ArrowDown"; press "ArrowDown"]) initial)
               = true) by reflexivity.
  assert (H2 : 0 <= selectedIndex
                      (run (three_results ++ [press "ArrowDown"; press "ArrowDown"]) initial))
    by (apply Z.leb_le; reflexivity).
  exact (conj H1 (conj H2
    (enter_is_click_on_selected_row _ false false false H1 H2))).
Defined.

(** A click on a row activates the result of that row and no other,
    whatever the selection is, and moves neither the selection nor the
    results; a click where there is no row does nothing. *)
Lemma click_activates_its_row (s : State) (row : nat) :
  match nth_error (results s) row with
  | Some r =>
      invocations (step s (Click row)) = (invocations s ++ [activation r])%list /\
      pending (step s (Click row)) = (pending s ++ [activation r])%list
  | None => step s (Click row) = s
  end /\
  selectedIndex (step s (Click row)) = selectedIndex s /\
  results (step s (Click row)) = results s /\
  isVisible (step s (Click row)) = isVisible s.
Proof.
  rewrite click_step. destruct (nth_error (results s) row) as [r |].
  - rewrite handleResultClick_invoke. cbn. auto.
  - auto.
Qed.

(** X18.  From Enter to a successful activation: on a visible overlay whose
    selection is a row, Enter sends the one call for that row, and when its
    promise resolves the overlay is hidden, no alert is shown and nothing
    is left pending. *)
Theorem enter_then_success
    (s : State) (r : SearchResult) (payload : list SearchResult) :
  isVisible s = true ->
  index (results s) (selectedIndex s) = Some r ->
  let entered := step s (press "Enter") in
  let done := step entered (Settle (List.length (pending s)) (Resolved payload)) in
  invocations entered = (invocations s ++ [activation r])%list /\
  isVisible entered = true /\
  isVisible done = false /\
  alerts done = alerts s /\
  pending done = pending s /\
  invocations done = invocations entered.
Proof.
  intros V X. cbv zeta. pose proof (index_Some _ _ _ _ X) as B.
  unfold index in X. destruct (Z.ltb_spec (selectedIndex s) 0) as [H | _]; [lia |].
  unfold press. rewrite enter_step by (assumption || lia). rewrite X.
  rewrite handleResultClick_invoke.
  assert (C : command (activation r) <> search).
  { unfold activation. cbn. destruct (type r); discriminate. }
  repeat split; try assumption.
  all: unfold step; cbn [handle]; unfold settle; cbn [pending invoke];
    rewrite nth_error_last;
    destruct (command (activation r)); try contradiction;
    rewrite commit_same_query by reflexivity; cbn; try reflexivity;
    apply remove_nth_last.
Qed.

Lemma enter_then_success_witness :
  isVisible (run (three_results ++ [press "ArrowDown"]) initial) = true /\
  index (results (run (three_results ++ [press "ArrowDown"]) initial))
        (selectedIndex (run (three_results ++ [press "ArrowDown"]) initial))
    = Some notes_txt /\
  let entered := step (run (three_results ++ [press "ArrowDown"]) initial) (press "Enter") in
  let done :=
    step entered
      (Settle (List.length (pending (run (three_results ++ [press "ArrowDown"]) initial)))
              (Resolved [])) in
  invocations entered
    = (invocations (run (three_results ++ [press "ArrowDown"]) initial)
       ++ [activation notes_txt])%list /\
  isVisible entered = true /\
  isVisible done = false /\
  alerts done = alerts (run (three_results ++ [press "ArrowDown"]) initial) /\
  pending done = pending (run (three_results ++ [press "ArrowDown"]) initial) /\
  invocations done = invocations entered.
Proof.
  assert (H1 : isVisible (run (three_results ++ [press "ArrowDown"]) initial) = true)
    by reflexivity.
  assert (H2 : index (results (run (three_results ++ [press "ArrowDown"]) initial))
                     (selectedIndex (run (three_results ++ [press "ArrowDown"]) initial))
               = Some notes_txt) by reflexivity.
  exact (conj H1 (conj H2
    (enter_then_success (run (three_results ++ [press "ArrowDown"]) initial)
       notes_txt [] H1 H2))).
Defined.

(** ** The shortcut hook *)

Lemma key_event_eqb (k : string) (c sh a : bool) (e : KeyboardEvent) :
  String.eqb (key e) k && Bool.eqb (ctrlKey e) c
  && Bool.eqb (shiftKey e) sh && Bool.eqb (altKey e) a = true
  <-> e = mkKey k c sh a.
Proof.
  destruct e as [k' c' sh' a']. cbn. split.
  - intros H. repeat (apply andb_prop in H; destruct H as [H ?]).
    apply String.eqb_eq in H. f_equal; try assumption; now apply Bool.eqb_prop.
  - intros H. injection H as -> -> -> ->.
    rewrite String.eqb_refl, !Bool.eqb_reflx. reflexivity.
Qed.

(** X19.  A shortcut registered for a key and three modifier flags runs its
    callback on exactly the key-down events that carry that key and those
    three flags, all four of them; on any other event it does nothing.  A
    modifier held in excess, or one missing, is no match. *)
Theorem shortcut_matches_exactly
    (k : string) (c sh a : bool) (callback : State -> State)
    (e : KeyboardEvent) (s : State) :
  (e = mkKey k c sh a -> useKeyboardShortcut k c sh a callback e s = callback s) /\
  (e <> mkKey k c sh a -> useKeyboardShortcut k c sh a callback e s = s).
Proof.
  unfold useKeyboardShortcut. pose proof (key_event_eqb k c sh a e) as H.
  destruct (String.eqb (key e) k && Bool.eqb (ctrlKey e) c
            && Bool.eqb (shiftKey e) sh && Bool.eqb (altKey e) a).
  - split; [reflexivity |]. intros N. exfalso. apply N, H. reflexivity.
  - split; [| reflexivity]. intros E. apply H in E. discriminate.
Qed.

(** X20.  Two shortcuts registered for different combinations do not
    interfere: on any key-down event at most one of the two callbacks runs,
    so the order in which the two listeners are called does not matter. *)
Theorem shortcuts_coexist
    (k1 k2 : string) (c1 sh1 a1 c2 sh2 a2 : bool)
    (callback1 callback2 : State -> State) (e : KeyboardEvent) (s : State) :
  mkKey k1 c1 sh1 a1 <> mkKey k2 c2 sh2 a2 ->
  useKeyboardShortcut k1 c1 sh1 a1 callback1 e
    (useKeyboardShortcut k2 c2 sh2 a2 callback2 e s) =
  useKeyboardShortcut k2 c2 sh2 a2 callback2 e
    (useKeyboardShortcut k1 c1 sh1 a1 callback1 e s).
Proof.
  intros N. unfold useKeyboardShortcut.
  pose proof (key_event_eqb k1 c1 sh1 a1 e) as H1.
  pose proof (key_event_eqb k2 c2 sh2 a2 e) as H2.
  destruct (String.eqb (key e) k1 && Bool.eqb (ctrlKey e) c1
            && Bool.eqb (shiftKey e) sh1 && Bool.eqb (altKey e) a1);
    destruct (String.eqb (key e) k2 && Bool.eqb (ctrlKey e) c2
              && Bool.eqb (shiftKey e) sh2 && Bool.eqb (altKey e) a2);
    try reflexivity.
  exfalso. apply N. rewrite <- (proj1 H1 eq_refl). apply H2. reflexivity.
Qed.

Lemma shortcuts_coexist_witness :
  mkKey " " true false false <> mkKey "k" true false false /\
  useKeyboardShortcut " " true false false toggleVisibility
      (mkKey " " true false false)
    (useKeyboardShortcut "k" true false false (setSearchQuery "")
       (mkKey " " true false false) initial) =
  useKeyboardShortcut "k" true false false (setSearchQuery "")
      (mkKey " " true false false)
    (useKeyboardShortcut " " true false false toggleVisibility
       (mkKey " " true false false) initial).
Proof.
  assert (H1 : mkKey " " true false false <> mkKey "k" true false false)
    by discriminate.
  exact (conj H1
    (shortcuts_coexist " " "k" true false false true false false
       toggleVisibility (setSearchQuery "") (mkKey " " true false false) initial H1)).
Defined.

(** ** What is on the page *)

Lemma pow2_pos (e : Z) : (0 < pow2 e)%Q.
Proof.
  unfold pow2. destruct (Z.leb_spec 0 e) as [H | H].
  - change 0%Q with (inject_Z 0). rewrite <- Zlt_Qlt. apply Z.pow_pos_nonneg; lia.
  - reflexivity.
Qed.

Lemma pow2_inverse (e : Z) :
  e < 0 -> (inject_Z (2 ^ (- e)) * pow2 e == 1)%Q.
Proof.
  intros H. unfold pow2. destruct (Z.leb_spec 0 e) as [H' | _]; [lia |].
  assert (P : 0 < 2 ^ (- e)) by (apply Z.pow_pos_nonneg; lia).
  unfold Qeq, Qmult, inject_Z. cbn. rewrite Z2Pos.id by exact P. lia.
Qed.

Lemma pow2_small (e : Z) : e <= -45 -> (pow2 e <= 1 # 35184372088832)%Q.
Proof.
  intros H. unfold pow2. destruct (Z.leb_spec 0 e) as [H' | _]; [lia |].
  assert (P : 2 ^ 45 <= 2 ^ (- e)) by (apply Z.pow_le_mono_r; lia).
  unfold Qle. cbn [Qnum Qden]. rewrite Z2Pos.id by lia.
  change (Z.pos 35184372088832) with (2 ^ 45). lia.
Qed.

Lemma floor_log2_upper (a : Q) (c : Z) :
  0 <= c -> (0 < a)%Q -> (a <= inject_Z (2 ^ c))%Q -> floor_log2 a <= c.
Proof.
  intros C A B.
  assert (N : 0 < Qnum a) by (unfold Qlt in A; cbn in A; lia).
  assert (K : Z.log2 (Qnum a) - Z.log2 (Z.pos (Qden a)) <= c).
  { unfold Qle in B. cbn in B.
    assert (L : Z.log2 (Qnum a) <= Z.log2 (Z.pos (Qden a) * 2 ^ c)).
    { apply Z.log2_le_mono. lia. }
    rewrite Z.log2_mul_pow2 in L by lia. lia. }
  unfold floor_log2.
  destruct (Qle_bool (pow2 (Z.log2 (Qnum a) - Z.log2 (Z.pos (Qden a)))) a); lia.
Qed.

Lemma round_half_even_near (r : Q) :
  (inject_Z (round_half_even r) - (1 # 2) <= r
   <= inject_Z (round_half_even r) + (1 # 2))%Q.
Proof.
  unfold round_half_even.
  pose proof (Qfloor_le r) as L. pose proof (Qlt_floor r) as U.
  rewrite inject_Z_plus in U. change (inject_Z 1) with 1%Q in U.
  destruct (Qcompare (r - inject_Z (Qfloor r)) (1 # 2)) eqn:C.
  - apply Qeq_alt in C. destruct (Z.even (Qfloor r));
      rewrite ?inject_Z_plus; change (inject_Z 1) with 1%Q; lra.
  - apply Qlt_alt in C. lra.
  - apply Qgt_alt in C. rewrite inject_Z_plus. change (inject_Z 1) with 1%Q. lra.
Qed.

Lemma round_half_even_upper (r : Q) (k : Z) :
  (r <= inject_Z k)%Q -> round_half_even r <= k.
Proof.
  intros B. pose proof (round_half_even_near r) as [_ N].
  pose proof (Qfloor_le r) as L.
  assert (F : Qfloor r <= k) by (rewrite Zle_Qle; lra).
  unfold round_half_even.
  destruct (Qcompare (r - inject_Z (Qfloor r)) (1 # 2)) eqn:C.
  - apply Qeq_alt in C. destruct (Z.even (Qfloor r)); [exact F |].
    destruct (Z_lt_le_dec (Qfloor r) k) as [H | H]; [lia |].
    rewrite Zle_Qle in H. lra.
  - exact F.
  - apply Qgt_alt in C.
    destruct (Z_lt_le_dec (Qfloor r) k) as [H | H]; [lia |].
    rewrite Zle_Qle in H. lra.
Qed.

Lemma round_half_even_nonneg (r : Q) : (0 <= r)%Q -> 0 <= round_half_even r.
Proof.
  intros B. assert (F : 0 <= Qfloor r).
  { change 0 with (Qfloor 0). apply Qfloor_resp_le, B. }
  unfold round_half_even.
  destruct (Qcompare (r - inject_Z (Qfloor r)) (1 # 2));
    [destruct (Z.even (Qfloor r)) | |]; lia.
Qed.

(** The binary64 product of a score with 100, for a score above 0 and at
    most 1: it lies between 0 and 100 and within 2^-46 of the exact
    product. *)
Lemma round64_percent (y : Q) :
  (0 < y)%Q -> (y <= 100)%Q ->
  (0 <= round64 y <= 100)%Q /\
  (round64 y - (1 # 70368744177664) <= y
   <= round64 y + (1 # 70368744177664))%Q.
Proof.
  intros H0 H1. unfold round64.
  destruct (Qeq_bool y 0) eqn:Z0; [apply Qeq_bool_eq in Z0; lra |].
  assert (S : Qle_bool 0 y = true) by (apply Qle_bool_iff; lra). rewrite S.
  assert (A : (Qabs y == y)%Q) by (apply Qabs_pos; lra).
  set (a := Qabs y) in *.
  assert (E : floor_log2 a <= 7).
  { apply floor_log2_upper; [lia | lra |]. change (inject_Z (2 ^ 7)) with 128%Q. lra. }
  set (p := Z.max (floor_log2 a - 52) (-1074)).
  assert (Pb : -1074 <= p <= -45) by (unfold p; lia).
  pose proof (pow2_pos p) as Sp. pose proof (pow2_small p (proj2 Pb)) as Ss.
  pose proof (pow2_inverse p ltac:(lia)) as Si.
  set (s := pow2 p) in *. set (P := 2 ^ (- p)) in *.
  assert (T : (a / s * s == a)%Q) by (field; lra).
  set (t := (a / s)%Q) in *.
  pose proof (round_half_even_near t) as [N1 N2].
  assert (Tp : (0 <= t)%Q) by nra.
  pose proof (round_half_even_nonneg t Tp) as M0.
  assert (M1 : round_half_even t <= 100 * P).
  { apply round_half_even_upper. rewrite inject_Z_mult.
    change (inject_Z 100) with 100%Q. nra. }
  set (m := round_half_even t) in *.
  rewrite Zle_Qle in M0, M1. rewrite inject_Z_mult in M1.
  change (inject_Z 100) with 100%Q in M1. change (inject_Z 0) with 0%Q in M0.
  split; split; nra.
Qed.

(** X21.  A score that is present, above 0 and at most 1 is shown as a
    whole percentage between 0 and 100: the integer nearest (halves going
    up) to the binary64 product of the score with 100, which is within
    1/2 + 2^-46 of score * 100. *)
Theorem score_label_is_nearest_percent (r : SearchResult) (x : Q) :
  score r = Some x -> (0 < x)%Q -> (x <= 1)%Q ->
  exists n : Z,
    renderScore r = ScoreSpan (number_to_string n ++ "%") /\
    0 <= n <= 100 /\
    (inject_Z n - (1 # 2) <= number_mul x 100 < inject_Z n + (1 # 2))%Q /\
    (inject_Z n - (1 # 2) - (1 # 70368744177664) <= x * 100
     < inject_Z n + (1 # 2) + (1 # 70368744177664))%Q.
Proof.
  intros S H0 H1. exists (Math_round (number_mul x 100)). split.
  { apply renderScore_nonzero; [exact S | lra]. }
  unfold number_mul.
  destruct (round64_percent (x * 100)) as [[Z0 Z1] [E0 E1]]; [lra | lra |].
  unfold Math_round. set (z := round64 (x * 100)) in *.
  pose proof (Qfloor_le (z + (1 # 2))) as L.
  pose proof (Qlt_floor (z + (1 # 2))) as U.
  rewrite inject_Z_plus in U. change (inject_Z 1) with 1%Q in U.
  split; [| split; lra]. split.
  - change 0 with (Qfloor 0). apply Qfloor_resp_le. lra.
  - change 100 with (Qfloor (100 + (1 # 2))). apply Qfloor_resp_le. lra.
Qed.

Lemma score_label_is_nearest_percent_witness :
  score notes_txt = Some (1 # 2) /\ (0 < 1 # 2)%Q /\ (1 # 2 <= 1)%Q /\
  exists n : Z,
    renderScore notes_txt = ScoreSpan (number_to_string n ++ "%") /\
    0 <= n <= 100 /\
    (inject_Z n - (1 # 2) <= number_mul (1 # 2) 100 < inject_Z n + (1 # 2))%Q /\
    (inject_Z n - (1 # 2) - (1 # 70368744177664) <= (1 # 2) * 100
     < inject_Z n + (1 # 2) + (1 # 70368744177664))%Q.
Proof.
  assert (H1 : score notes_txt = Some (1 # 2)) by reflexivity.
  assert (H2 : (0 < 1 # 2)%Q) by reflexivity.
  assert (H3 : (1 # 2 <= 1)%Q) by discriminate.
  exact (conj H1 (conj H2 (conj H3
    (score_label_is_nearest_percent notes_txt (1 # 2) H1 H2 H3)))).
Defined.

(** The score 0.015, that is the binary64 number 1080863910568919 / 2^56,
    is shown as 2%: its product with 100 is rounded to 1.5 before
    [Math.round] sees it. *)
Lemma score_0_015_shows_2_percent (p n : string) (t : ResultType) :
  renderScore (mkResult p n t (Some (1080863910568919 # 72057594037927936)))
  = ScoreSpan "2%".
Proof. vm_compute. reflexivity. Qed.

Lemma rowsFrom_results (i selected : Z) (rs : list SearchResult) :
  map rowResult (rowsFrom i selected rs) = rs.
Proof.
  revert i. induction rs as [| r rest IH]; intros i; [reflexivity |].
  cbn. rewrite IH. reflexivity.
Qed.

Lemma index_cons_pos (A : Type) (x : A) (l : list A) (j : Z) :
  j <> 0 -> index (x :: l) j = index l (j - 1).
Proof.
  intros N. unfold index.
  destruct (Z.ltb_spec j 0) as [H | H]; destruct (Z.ltb_spec (j - 1) 0) as [H' | H'];
    try reflexivity; try lia.
  replace (Z.to_nat j) with (S (Z.to_nat (j - 1))) by lia. reflexivity.
Qed.

Lemma rowsFrom_selected (i selected : Z) (rs : list SearchResult) :
  map rowResult (filter rowSelected (rowsFrom i selected rs)) =
  match index rs (selected - i) with Some r => [r] | None => [] end.
Proof.
  revert i. induction rs as [| r rest IH]; intros i.
  - cbn. unfold index. destruct (selected - i <? 0); [reflexivity |].
    destruct (Z.to_nat (selected - i)); reflexivity.
  - cbn [rowsFrom filter rowSelected].
    destruct (Z.eqb_spec selected i) as [E | E].
    + cbn [map rowResult]. rewrite IH.
      replace (selected - i) with 0 by lia.
      change (index (r :: rest) 0) with (Some r).
      unfold index. destruct (Z.ltb_spec (selected - (i + 1)) 0); [reflexivity | lia].
    + rewrite IH. rewrite index_cons_pos by lia.
      replace (selected - i - 1) with (selected - (i + 1)) by lia. reflexivity.
Qed.

Lemma index_map (A B : Type) (f : A -> B) (l : list A) (j : Z) :
  index (map f l) j = option_map f (index l j).
Proof.
  unfold index. destruct (j <? 0); [reflexivity |]. apply nth_error_map.
Qed.

(** X22.  The rows on the page are the results, in order, and the rows
    marked as selected are exactly the row under the selection when the
    selection is the index of a row: one row is highlighted then, none when
    the selection is "none" or lies beyond the results.  The row the scroll
    effect brings into view is that same row. *)
Theorem selected_row_is_unique (s : State) :
  map rowResult (renderRows s) = results s /\
  map rowResult (filter rowSelected (renderRows s)) =
    match index (results s) (selectedIndex s) with
    | Some r => [r]
    | None => []
    end /\
  option_map rowResult (scrollTarget s) = index (results s) (selectedIndex s).
Proof.
  unfold renderRows. split; [apply rowsFrom_results |]. split.
  - rewrite rowsFrom_selected. rewrite Z.sub_0_r. reflexivity.
  - unfold scrollTarget, renderRows.
    rewrite <- (rowsFrom_results 0 (selectedIndex s) (results s)) at 3.
    rewrite index_map.
    destruct (Z.geb_spec (selectedIndex s) 0) as [G | G]; cbn [andb].
    + destruct (Z.ltb_spec 0 (len (results s))) as [P | P]; [reflexivity |].
      cbn [option_map].
      assert (E : results s = []).
      { unfold len in P. destruct (results s); [reflexivity | cbn in P; lia]. }
      rewrite E. cbn. unfold index. destruct (selectedIndex s <? 0); [reflexivity |].
      destruct (Z.to_nat (selectedIndex s)); reflexivity.
    + unfold index. destruct (Z.ltb_spec (selectedIndex s) 0); [reflexivity | lia].
Qed.

(** X23.  The three types of result get three different icons. *)
Theorem icons_tell_types_apart (t1 t2 : ResultType) :
  t1 <> t2 -> iconPath t1 <> iconPath t2.
Proof.
  intros N. destruct t1, t2; try contradiction; cbn; discriminate.
Qed.

Lemma icons_tell_types_apart_witness :
  file <> app /\ iconPath file <> iconPath app.
Proof.
  assert (H1 : file <> app) by discriminate.
  exact (conj H1 (icons_tell_types_apart file app H1)).
Defined.

(** ** The blank test *)

Lemma trimStart_empty (q : string) :
  trimStart q = "" <-> all_white_space q = true.
Proof.
  induction q as [| c r IH]; cbn; [tauto |].
  destruct (is_white_space c); cbn; [exact IH |]. split; discriminate.
Qed.

Lemma trimStart_head (q : string) (c : ascii) (r : string) :
  trimStart q = String c r -> is_white_space c = false.
Proof.
  induction q as [| a q IH]; cbn; [discriminate |].
  destruct (is_white_space a) eqn:W; [exact IH |].
  intros H. injection H as <- _. exact W.
Qed.

Lemma trimStart_snoc (w : string) (c : ascii) :
  is_white_space c = false -> trimStart (w ++ String c "") <> "".
Proof.
  intros H. induction w as [| a w IH]; cbn.
  - rewrite H. discriminate.
  - destruct (is_white_space a); [exact IH | discriminate].
Qed.

Lemma reverse_nonempty (c : ascii) (r : string) : reverse (String c r) <> "".
Proof. cbn. destruct (reverse r); cbn; discriminate. Qed.

(** X24.  The test [searchQuery.trim() === ''] of the effect holds for the
    texts made of white space only, the empty text among them, and for no
    other: one character that is not white space, anywhere in the text, is
    enough for the timer to be armed. *)
Theorem blank_is_all_white_space (q : string) :
  blank q = all_white_space q.
Proof.
  unfold blank, trim, trimEnd.
  destruct (all_white_space q) eqn:A.
  - apply trimStart_empty in A. rewrite A. reflexivity.
  - apply String.eqb_neq.
    destruct (trimStart q) as [| c r] eqn:T.
    + apply trimStart_empty in T. congruence.
    + pose proof (trimStart_head _ _ _ T) as W.
      change (reverse (String c r)) with (reverse r ++ String c "").
      pose proof (trimStart_snoc (reverse r) c W) as N.
      destruct (trimStart (reverse r ++ String c "")) as [| c' r']; [contradiction |].
      apply reverse_nonempty.
Qed.

(** X25.  The line "No results found" does not wait for a search: typing a
    text of two characters or more, not blank, into an overlay that shows no
    results and is not searching puts the line on the page at once, with the
    text between double quotes, while the timer is armed and before anything
    is sent to the engine. *)
Theorem no_results_line_precedes_search (s : State) (q : string) :
  q <> searchQuery s -> blank q = false -> (2 <= String.length q)%nat ->
  results s = [] -> isSearching s = false ->
  let typed := step s (InputChange q) in
  noResults (render typed) =
    Some ("No results found for " ++ dquote ++ q ++ dquote) /\
  debounceTimer typed = Some (mkTimer (clock s + 200)%nat q) /\
  invocations typed = invocations s.
Proof.
  intros N B L R S. cbv zeta.
  assert (E : step s (InputChange q)
              = setDebounceTimer (Some (mkTimer (clock s + 200)%nat q))
                  (clearTimeout (setSearchQuery q s))).
  { unfold step. cbn [handle]. rewrite commit_new_query by (cbn; exact N).
    unfold searchEffect. unfold blank in B. cbn. rewrite B. reflexivity. }
  rewrite E. split; [| split; reflexivity].
  unfold render. cbn [noResults isSearching results searchQuery
                      setDebounceTimer clearTimeout setSearchQuery].
  rewrite S, R. apply Nat.leb_le in L. cbn [negb len List.length Z.of_nat Z.eqb andb].
  rewrite L. reflexivity.
Qed.

Lemma no_results_line_precedes_search_witness :
  "re" <> searchQuery (run [ctrlSpace] initial) /\
  blank "re" = false /\ (2 <= String.length "re")%nat /\
  results (run [ctrlSpace] initial) = [] /\
  isSearching (run [ctrlSpace] initial) = false /\
  let typed := step (run [ctrlSpace] initial) (InputChange "re") in
  noResults (render typed) =
    Some ("No results found for " ++ dquote ++ "re" ++ dquote) /\
  debounceTimer typed
    = Some (mkTimer (clock (run [ctrlSpace] initial) + 200)%nat "re") /\
  invocations typed = invocations (run [ctrlSpace] initial).
Proof.
  assert (H1 : "re" <> searchQuery (run [ctrlSpace] initial)) by discriminate.
  assert (H2 : blank "re" = false) by reflexivity.
  assert (H3 : (2 <= String.length "re")%nat) by (cbn; lia).
  assert (H4 : results (run [ctrlSpace] initial) = []) by reflexivity.
  assert (H5 : isSearching (run [ctrlSpace] initial) = false) by reflexivity.
  exact (conj H1 (conj H2 (conj H3 (conj H4 (conj H5
    (no_results_line_precedes_search (run [ctrlSpace] initial) "re"
       H1 H2 H3 H4 H5)))))).
Defined.

(** ** Opening the overlay *)

(** X26.  The overlay always opens empty.  In every state the component
    reaches, an event that takes the overlay from hidden to visible leaves
    it with an empty text, no results, no selection and no timer armed,
    whatever Escape or an activation had left behind when it was closed. *)
Theorem overlay_opens_fresh (s : State) (ev : Event) :
  reachable s -> isVisible s = false -> isVisible (step s ev) = true ->
  searchQuery (step s ev) = "" /\ results (step s ev) = [] /\
  selectedIndex (step s ev) = -1 /\ debounceTimer (step s ev) = None.
Proof.
  intros R H V. rewrite (opening_event s ev H V).
  destruct (toggle_resets s) as (_ & Q & Rs & Sel). cbv zeta in Q, Rs, Sel.
  pose proof (toggle_timer_none s R). auto.
Qed.

Lemma overlay_opens_fresh_witness :
  reachable (run (three_results ++ [press "ArrowDown"; press "Escape"]) initial) /\
  isVisible (run (three_results ++ [press "ArrowDown"; press "Escape"]) initial)
    = false /\
  isVisible (step (run (three_results ++ [press "ArrowDown"; press "Escape"]) initial)
                  ctrlSpace) = true /\
  searchQuery (step (run (three_results ++ [press "ArrowDown"; press "Escape"]) initial)
                    ctrlSpace) = "" /\
  results (step (run (three_results ++ [press "ArrowDown"; press "Escape"]) initial)
                ctrlSpace) = [] /\
  selectedIndex (step (run (three_results ++ [press "ArrowDown"; press "Escape"]) initial)
                      ctrlSpace) = -1 /\
  debounceTimer (step (run (three_results ++ [press "ArrowDown"; press "Escape"]) initial)
                      ctrlSpace) = None.
Proof.
  assert (H1 : reachable
                 (run (three_results ++ [press "ArrowDown"; press "Escape"]) initial))
    by (eexists; reflexivity).
  assert (H2 : isVisible
                 (run (three_results ++ [press "ArrowDown"; press "Escape"]) initial)
               = false) by reflexivity.
  assert (H3 : isVisible
                 (step (run (three_results ++ [press "ArrowDown"; press "Escape"]) initial)
                       ctrlSpace) = true) by reflexivity.
  exact (conj H1 (conj H2 (conj H3 (overlay_opens_fresh _ ctrlSpace H1 H2 H3)))).
Defined.

(** * The debounce *)

(** ** The silence after an edit *)

Lemma is_search_activation (r : SearchResult) : is_search (activation r) = false.
Proof. unfold is_search, activation. cbn. destruct (type r); reflexivity. Qed.

Lemma handleKeyDown_query (e : KeyboardEvent) (s : State) :
  searchQuery (handleKeyDown e s) = searchQuery s.
Proof.
  unfold handleKeyDown, handleResultClick.
  repeat match goal with
         | |- context [if ?b then _ else _] => destruct b
         | |- context [match ?x with _ => _ end] => destruct x
         end; reflexivity.
Qed.

Lemma handle_keeps_query (ev : Event) (s : State) :
  keeps_text ev = true -> searchQuery (handle ev s) = searchQuery s.
Proof.
  intros K. destruct ev as [e | v | row | n o | ms]; cbn [handle keeps_text] in *.
  - rewrite shortcut_not_hotkey by (destruct (is_hotkey e); [discriminate | reflexivity]).
    apply handleKeyDown_query.
  - discriminate.
  - destruct (nth_error (results s) row) as [r |]; [| reflexivity].
    apply handleResultClick_query.
  - unfold settle. destruct (nth_error (pending s) n) as [i |]; [| reflexivity].
    destruct (command i), o; reflexivity.
  - apply elapse_query.
Qed.

Lemma handle_keeps_searches (ev : Event) (s : State) :
  keeps_text ev = true -> (forall ms, ev <> Elapse ms) ->
  searches (handle ev s) = searches s.
Proof.
  intros K N. unfold searches.
  destruct ev as [e | v | row | n o | ms]; cbn [handle keeps_text] in *.
  - rewrite shortcut_invocations.
    destruct (handleKeyDown_invocations e s) as (new & -> & [-> | (r & _ & _ & ->)]);
      rewrite filter_app; cbn [filter]; rewrite ?is_search_activation;
      apply app_nil_r.
  - discriminate.
  - destruct (nth_error (results s) row) as [r |]; [| reflexivity].
    rewrite handleResultClick_invoke. cbn [invoke invocations].
    rewrite filter_app. cbn [filter].
    change (mkInvocation (command (activation r)) (argument (activation r)))
      with (activation r).
    rewrite is_search_activation. apply app_nil_r.
  - rewrite settle_invocations. reflexivity.
  - exfalso. exact (N ms eq_refl).
Qed.

(** An event that leaves the text alone leaves the debounce where it was,
    but for the time it takes: the timer fires when it comes due, once. *)
Lemma quiet_step (q : string) (d : nat) (sent : list Invocation)
    (s : State) (ev : Event) :
  after_edit q d sent s -> keeps_text ev = true ->
  after_edit q d sent (step s ev) /\
  clock (step s ev) = (clock s + elapsed [ev])%nat.
Proof.
  intros [Q A] K.
  assert (E : step s ev = handle ev s).
  { unfold step. apply commit_same_query, handle_keeps_query, K. }
  rewrite E.
  destruct ev as [e | v | row | n o | ms].
  1-4: match goal with
       | |- context [handle ?ev ?s'] =>
           destruct (handle_timer_clock ev s') as [T C];
           pose proof (handle_keeps_searches ev s' K) as S;
           pose proof (handle_keeps_query ev s' K) as Q'
       end;
       (split; [| cbn [elapsed]; lia]);
       unfold after_edit; rewrite T, C, S by discriminate;
       split; [congruence | exact A].
  cbn [handle elapsed]. rewrite Nat.add_0_r. unfold after_edit, elapse.
  cbn [debounceTimer setClock clock].
  destruct (blank q) eqn:B.
  - destruct A as [T S]. rewrite T. cbn. auto.
  - destruct A as [(C & T & S) | (C & T & S)]; rewrite T.
    + cbn [due captured].
      destruct (Nat.leb_spec d (clock s + ms)) as [D | D].
      * split; [| unfold timerCallback; destruct (performSearch q); reflexivity].
        split; [unfold timerCallback; destruct (performSearch q); exact Q |].
        right. split; [unfold timerCallback; destruct (performSearch q); exact D |].
        split; [apply timerCallback_timer |].
        unfold timerCallback, search_for, searches in *.
        destruct (performSearch_gate q) as [[L ->] | [L ->]].
        -- destruct (Nat.ltb_spec (String.length q) 2); [| lia].
           cbn. rewrite S, app_nil_r. reflexivity.
        -- destruct (Nat.ltb_spec (String.length q) 2); [lia |].
           cbn [invoke invocations setIsSearching setDebounceTimer setClock].
           rewrite filter_app, S. reflexivity.
      * cbn. split; [| reflexivity]. split; [exact Q |]. left. auto.
    + cbn. split; [| reflexivity]. split; [exact Q |]. right.
      split; [lia | auto].
Qed.

Lemma quiet_run (q : string) (d : nat) (sent : list Invocation)
    (evs : list Event) :
  forall s : State,
    after_edit q d sent s -> forallb keeps_text evs = true ->
    after_edit q d sent (run evs s) /\
    clock (run evs s) = (clock s + elapsed evs)%nat.
Proof.
  induction evs as [| ev evs IH]; intros s A K.
  - cbn. split; [exact A | lia].
  - cbn [forallb] in K. apply andb_prop in K. destruct K as [K1 K2].
    destruct (quiet_step q d sent s ev A K1) as [A1 C1].
    destruct (IH _ A1 K2) as [A2 C2].
    change (run (ev :: evs) s) with (run evs (step s ev)).
    split; [exact A2 |]. rewrite C2, C1.
    destruct ev; cbn [elapsed]; lia.
Qed.

(** The silence after the last edit, whatever happens in it but an edit or
    the hotkey: no search is sent before 200 ms have passed, and from then
    on the searches sent are the one for the text, if the text passes the
    two gates, and no other. *)
Lemma silence_after_edit (q : string) (s : State) (silence : list Event) :
  window_restarted q s -> forallb keeps_text silence = true ->
  searches (run silence s) =
  (searches s ++
    (if (200 <=? elapsed silence)%nat
     then (if blank q || (String.length q <? 2)%nat then []
           else [mkInvocation search q])
     else []))%list.
Proof.
  intros [Q T] K.
  assert (A : after_edit q (clock s + 200) (searches s) s).
  { split; [exact Q |]. rewrite T. destruct (blank q); [auto |].
    left. split; [lia | auto]. }
  destruct (quiet_run q _ _ silence s A K) as [[_ A'] C'].
  destruct (blank q); cbn [orb].
  - destruct A' as [_ ->]. destruct (200 <=? elapsed silence)%nat;
      rewrite app_nil_r; reflexivity.
  - destruct A' as [(C & _ & ->) | (C & _ & ->)].
    + destruct (Nat.leb_spec 200 (elapsed silence)); [lia |].
      rewrite app_nil_r. reflexivity.
    + destruct (Nat.leb_spec 200 (elapsed silence)); [| lia]. reflexivity.
Qed.

(** ** The claim on the browser's timers *)

Lemma slot_searches (p : Browser.Page) :
  searches (slot p) = searches (Browser.component p).
Proof. reflexivity. Qed.

(** C5.  A burst of edits on the page, each changing the text and each
    less than 200 ms after the one before.  Every edit cancels the timeout
    that was armed and arms a new one a full window ahead, so that when the
    burst is over the browser holds no timeout (blank text) or exactly one,
    for the final text, and nothing has been sent to the engine.  In the
    silence that follows, whatever happens but an edit or the hotkey and
    however the time is cut into lapses, no search is sent before 200 ms
    have passed, and from then on the searches sent are one at most, for the
    final text. *)
Theorem debounce_coalesces_rapid_edits
    (p : Browser.Page) (first : string) (edits : list (nat * string)) :
  Browser.reachable p ->
  first <> searchQuery (Browser.component p) -> rapid first edits ->
  let typed := Browser.run (InputChange first :: keystrokes edits) p in
  let q := final_query first edits in
  searchQuery (Browser.component typed) = q /\
  (blank q = true /\ Browser.timeouts typed = [] \/
   blank q = false /\
   exists h : nat,
     Browser.current typed = Some h /\
     Browser.timeouts typed =
       [(h, mkTimer (clock (Browser.component typed) + 200)%nat q)]) /\
  invocations (Browser.component typed) = invocations (Browser.component p) /\
  exists issued : list Invocation,
    (issued = [] \/ issued = [mkInvocation search q]) /\
    (issued = [] <-> blank q = true \/ (String.length q < 2)%nat) /\
    forall silence : list Event,
      forallb keeps_text silence = true ->
      searches (Browser.component (Browser.run silence typed)) =
      (searches (Browser.component p) ++
        (if (200 <=? elapsed silence)%nat then issued else []))%list.
Proof.
  intros Hr N R. cbv zeta.
  pose proof (reachable_one_timeout p Hr) as O.
  destruct (simulation_run (InputChange first :: keystrokes edits) p O) as [Ot Et].
  set (typed := Browser.run (InputChange first :: keystrokes edits) p) in *.
  set (q := final_query first edits) in *.
  change (run (InputChange first :: keystrokes edits) (slot p))
    with (run (keystrokes edits) (step (slot p) (InputChange first))) in Et.
  destruct (input_change_restarts (slot p) first N) as [W0 I0].
  destruct (burst_keeps_silent edits first _ W0 R) as [W I].
  rewrite <- Et in W, I. fold q in W. destruct W as [Wq Wt].
  assert (Inv : invocations (Browser.component typed)
                = invocations (Browser.component p)).
  { rewrite <- !slot_invocations. congruence. }
  split; [exact Wq |]. split.
  { pose proof Wt as Wt'. rewrite slot_timer, slot_clock in Wt'.
    destruct Ot as [_ [E | (h & t & E & C & _)]];
      rewrite E in Wt'; rewrite E;
      destruct (blank q); try discriminate.
    - left. auto.
    - right. split; [reflexivity |]. exists h. split; [exact C |].
      injection Wt' as ->. reflexivity. }
  split; [exact Inv |].
  exists (if blank q || (String.length q <? 2)%nat then []
          else [mkInvocation search q]).
  split; [destruct (blank q || (String.length q <? 2)%nat); auto |].
  split.
  { destruct (blank q); cbn [orb]; [split; auto |].
    destruct (Nat.ltb_spec (String.length q) 2) as [L | L].
    - split; auto.
    - split; [discriminate | intros [B | B]; [discriminate | lia]]. }
  intros silence K.
  destruct (simulation_run silence typed Ot) as [_ Es].
  rewrite <- slot_searches, Es.
  rewrite (silence_after_edit q (slot typed) silence (conj Wq Wt) K).
  rewrite slot_searches. unfold searches. rewrite Inv. reflexivity.
Qed.

Lemma debounce_coalesces_rapid_edits_witness :
  Browser.reachable (Browser.run [ctrlSpace] Browser.mounted) /\
  "r" <> searchQuery (Browser.component (Browser.run [ctrlSpace] Browser.mounted)) /\
  rapid "r" [(50, "re"); (120, "rep")]%nat /\
  let typed :=
    Browser.run (InputChange "r" :: keystrokes [(50, "re"); (120, "rep")]%nat)
                (Browser.run [ctrlSpace] Browser.mounted) in
  let q := final_query "r" [(50, "re"); (120, "rep")]%nat in
  searchQuery (Browser.component typed) = q /\
  (blank q = true /\ Browser.timeouts typed = [] \/
   blank q = false /\
   exists h : nat,
     Browser.current typed = Some h /\
     Browser.timeouts typed =
       [(h, mkTimer (clock (Browser.component typed) + 200)%nat q)]) /\
  invocations (Browser.component typed)
    = invocations (Browser.component (Browser.run [ctrlSpace] Browser.mounted)) /\
  exists issued : list Invocation,
    (issued = [] \/ issued = [mkInvocation search q]) /\
    (issued = [] <-> blank q = true \/ (String.length q < 2)%nat) /\
    forall silence : list Event,
      forallb keeps_text silence = true ->
      searches (Browser.component (Browser.run silence typed)) =
      (searches (Browser.component (Browser.run [ctrlSpace] Browser.mounted)) ++
        (if (200 <=? elapsed silence)%nat then issued else []))%list.
Proof.
  assert (H1 : Browser.reachable (Browser.run [ctrlSpace] Browser.mounted))
    by (exists [ctrlSpace]; reflexivity).
  assert (H2 : "r" <> searchQuery
                        (Browser.component (Browser.run [ctrlSpace] Browser.mounted)))
    by discriminate.
  assert (H3 : rapid "r" [(50, "re"); (120, "rep")]%nat).
  { cbn. repeat split; try lia; discriminate. }
  exact (conj H1 (conj H2 (conj H3
    (debounce_coalesces_rapid_edits (Browser.run [ctrlSpace] Browser.mounted)
       "r" [(50, "re"); (120, "rep")]%nat H1 H2 H3)))).
Defined.

(** The burst "r", "re", "rep" and then 100, 100 and 300 ms of silence with
    an ArrowDown in between: one timeout is left after the burst, and one
    search leaves, for "rep". *)
Lemma burst_then_silence_example :
  let typed :=
    Browser.run (ctrlSpace :: InputChange "r"
                 :: keystrokes [(50, "re"); (120, "rep")]%nat)
                Browser.mounted in
  Browser.timeouts typed = [(3%nat, mkTimer 370 "rep")] /\
  invocations
    (Browser.component
       (Browser.run [Elapse 100; press "ArrowDown"; Elapse 100; Elapse 300] typed))
  = [mkInvocation search "rep"].
Proof. split; reflexivity. Qed.
